(** * stockapp.py: indicator pipeline and decision mapping

    A shallow embedding of [src/stockapp.py].  A Python/numpy float is a
    rational or NaN (infinities and rounding are outside the model: every
    arithmetic step is exact); a pandas Series or numpy vector is a list of
    such cells, a DataFrame a list of rows.  The calls into pandas and numpy
    ([diff], [where], [rolling(..).mean()], [ewm(.., adjust=False).mean()],
    [np.where], [np.argmax], [reshape]) are embedded with the semantics those
    libraries give them on the arguments the program passes. *)

From Stdlib Require Import String Ascii List Bool Arith Lia ZArith QArith Lqa Sorted.
Import ListNotations.

Set Implicit Arguments.

(** ** Floats with NaN *)

Definition float : Type := option Q.
Definition NaN : float := None.
Definition num (q : Q) : float := Some q.

Definition isnan (x : float) : bool :=
  match x with None => true | Some _ => false end.

Definition lift2 (op : Q -> Q -> Q) (a b : float) : float :=
  match a, b with
  | Some x, Some y => Some (op x y)
  | _, _ => NaN
  end.

Definition fadd : float -> float -> float := lift2 Qplus.
Definition fsub : float -> float -> float := lift2 Qminus.
Definition fmul : float -> float -> float := lift2 Qmult.

Definition fneg (a : float) : float :=
  match a with Some x => Some (- x) | None => NaN end.

(** Division: IEEE gives an infinity or NaN for a zero divisor; the model has
    no infinities and yields NaN there. *)
Definition fdiv (a b : float) : float :=
  match a, b with
  | Some x, Some y => if Qeq_bool y 0 then NaN else Some (x / y)
  | _, _ => NaN
  end.

Definition Qlt_bool (x y : Q) : bool := negb (Qle_bool y x).

(** Comparisons with NaN are false. *)
Definition fgt (a b : float) : bool :=
  match a, b with Some x, Some y => Qlt_bool y x | _, _ => false end.
Definition flt (a b : float) : bool :=
  match a, b with Some x, Some y => Qlt_bool x y | _, _ => false end.
Definition feqb (a b : float) : bool :=
  match a, b with Some x, Some y => Qeq_bool x y | _, _ => false end.

(** Equality of cells up to the representation of the rational. *)
Definition float_eq (a b : float) : Prop :=
  match a, b with
  | Some x, Some y => x == y
  | None, None => True
  | _, _ => False
  end.

Definition series_eq : list float -> list float -> Prop := Forall2 float_eq.

(** ** Series primitives (pandas / numpy) *)

Definition zip_with {A B C} (f : A -> B -> C) (l : list A) (r : list B) : list C :=
  map (fun p => f (fst p) (snd p)) (combine l r).

(** [Series.diff()]: first entry NaN, then the change from the prior entry. *)
Definition diff (s : list float) : list float :=
  match s with
  | [] => []
  | _ :: rest => NaN :: zip_with fsub rest s
  end.

(** [Series.where(cond, other)]: keep the entry where [cond] holds. *)
Definition where_ (cond : list bool) (other : float) (s : list float) : list float :=
  zip_with (fun x (c : bool) => if c then x else other) s cond.

(** [np.where(cond, a, b)] with a scalar [a]. *)
Definition np_where (cond : list bool) (a : float) (b : list float) : list float :=
  zip_with (fun (c : bool) y => if c then a else y) cond b.

(** The window that ends at index [i]: at most [w] entries. *)
Definition window_at (w i : nat) (s : list float) : list float :=
  skipn (S i - w) (firstn (S i) s).

Definition nobs (l : list float) : nat :=
  length (filter (fun x => negb (isnan x)) l).

Definition fsum (l : list float) : Q :=
  fold_right (fun x acc => match x with Some q => q + acc | None => acc end) 0 l.

(** Mean of a window; NaN when it holds fewer than [min_periods]
    observations ([min_periods] defaults to the window size). *)
Definition window_mean (min_periods : nat) (l : list float) : float :=
  if (nobs l <? min_periods)%nat then NaN
  else fdiv (num (fsum l)) (num (inject_Z (Z.of_nat (nobs l)))).

(** [Series.rolling(window=w).mean()]. *)
Definition rolling_mean (w : nat) (s : list float) : list float :=
  map (fun i => window_mean w (window_at w i s)) (seq 0 (length s)).

(** [np.zeros(n)]. *)
Definition np_zeros (n : nat) : list float := repeat (num 0) n.

(** [Series.ewm(span=span, adjust=False).mean()], after pandas' loop: the
    running value [weighted], the weight [old_wt] of the history and the
    number of observations seen ([ignore_na=False], [min_periods=0]). *)
Record ewm_state : Type := mk_ewm { weighted : float; old_wt : Q; ewm_nobs : nat }.

Definition ewm_alpha (span : nat) : Q := 2 / (inject_Z (Z.of_nat span) + 1).

Definition ewm_step (alpha : Q) (st : ewm_state) (cur : float) : ewm_state :=
  let n := (ewm_nobs st + (if isnan cur then 0 else 1))%nat in
  match weighted st with
  | Some wv =>
      let ow := old_wt st * (1 - alpha) in
      match cur with
      | Some c =>
          let wv' := if Qeq_bool wv c then wv
                     else (ow * wv + alpha * c) / (ow + alpha) in
          mk_ewm (Some wv') 1 n
      | None => mk_ewm (Some wv) ow n
      end
  | None => mk_ewm cur (old_wt st) n
  end.

Definition ewm_out (st : ewm_state) : float :=
  if (1 <=? ewm_nobs st)%nat then weighted st else NaN.

Fixpoint ewm_loop (alpha : Q) (st : ewm_state) (s : list float) : list float :=
  match s with
  | [] => []
  | cur :: rest =>
      let st' := ewm_step alpha st cur in
      ewm_out st' :: ewm_loop alpha st' rest
  end.

Definition ewm_mean (span : nat) (s : list float) : list float :=
  match s with
  | [] => []
  | x0 :: rest =>
      let st := mk_ewm x0 1 (if isnan x0 then 0 else 1) in
      ewm_out st :: ewm_loop (ewm_alpha span) st rest
  end.

(** ** Indicators *)

(** The trailing averages of the gains and of the losses in [calculate_rsi]. *)
Definition rsi_gain (window : nat) (data : list float) : list float :=
  let delta := diff data in
  rolling_mean window (where_ (map (fun d => fgt d (num 0)) delta) (num 0) delta).

Definition rsi_loss (window : nat) (data : list float) : list float :=
  let delta := diff data in
  map fneg
    (rolling_mean window (where_ (map (fun d => flt d (num 0)) delta) (num 0) delta)).

(** The [try] block of [calculate_rsi]. *)
Definition rsi_formula (window : nat) (data : list float) : list float :=
  let gain := rsi_gain window data in
  let loss := rsi_loss window data in
  let rs := np_where (map (fun l => feqb l (num 0)) loss) (num 0) (zip_with fdiv gain loss) in
  map (fun r => fsub (num 100) (fdiv (num 100) (fadd (num 1) r))) rs.

(** The [try] block of [calculate_macd]. *)
Definition macd_formula (short_window long_window signal_window : nat)
    (data : list float) : list float :=
  let short_ema := ewm_mean short_window data in
  let long_ema := ewm_mean long_window data in
  let macd := zip_with fsub short_ema long_ema in
  let signal := ewm_mean signal_window macd in
  zip_with fsub macd signal.

(** ** Effects

    The callback talks to Tk widgets, message boxes and the external
    collaborators (Yahoo Finance, the Keras model, the joblib scaler).  Each
    such call is recorded as an event, in program order. *)

Open Scope string_scope.

Inductive event : Type :=
| ShowWarning (title message : string)
| ShowError (title message : string)
| ButtonState (enabled : bool)
| ResultLabel (text fg : string)
| RootUpdate
| YfDownload (ticker period : string)
| LoadModel (path : string)
| JoblibLoad (path : string)
| ScalerTransform
| ModelPredict.

(** The return path the callback takes. *)
Inductive direction : Type := Neutral | Up | Down.

Record TrendPrediction : Type := mkPrediction {
  best_class : nat;
  confidence : float;
  percentage_move : string;
  result_text : string;
  result_color : string
}.

Inductive outcome : Type :=
| InputError               (* line 66: empty ticker *)
| FetchFailed              (* line 76 *)
| IndicatorError           (* line 85 *)
| InsufficientData         (* line 91 *)
| FileError                (* line 99 *)
| LoadingError             (* line 103 *)
| PredictionError          (* line 112 *)
| Uncaught (exn : string)  (* an exception that leaves the callback *)
| Done (p : TrendPrediction).

(** A computation logs events and either yields a value or leaves the
    callback early with an outcome. *)
Definition run (A : Type) : Type := (list event * (outcome + A))%type.

Definition ret {A} (a : A) : run A := ([], inr a).
Definition emit (e : event) : run unit := ([e], inr tt).
Definition leave {A} (o : outcome) : run A := ([], inl o).

Definition prepend {A} (t : list event) (m : run A) : run A :=
  ((t ++ fst m)%list, snd m).

Definition bind {A B} (m : run A) (k : A -> run B) : run B :=
  match m with
  | (t, inl o) => (t, inl o)
  | (t, inr a) => prepend t (k a)
  end.

Notation "x <- m ;; k" := (bind m (fun x => k))
  (at level 61, m at next level, right associativity).
Notation "m ;; k" := (bind m (fun _ => k))
  (at level 61, right associativity).

Definition finish (m : run outcome) : list event * outcome :=
  match m with
  | (t, inl o) => (t, o)
  | (t, inr o) => (t, o)
  end.

(** ** Frames *)

(** A row of the frame [yf.download] returns. *)
Record bar : Type := mkBar {
  bar_close : float;
  bar_volume : float;
  bar_other : list float
}.

(** A row of [data[['Close', 'Volume']]]. *)
Record quote : Type := mkQuote { q_close : float; q_volume : float }.

(** A row once the RSI and MACD columns are set. *)
Record features : Type := mkFeatures {
  Close : float; Volume : float; RSI : float; MACD : float
}.

Definition bar_cells (b : bar) : list float :=
  bar_close b :: bar_volume b :: bar_other b.
Definition cells (r : features) : list float :=
  [Close r; Volume r; RSI r; MACD r].

Definition no_nan (l : list float) : bool := forallb (fun x => negb (isnan x)) l.

(** [DataFrame.dropna()]: rows that hold a NaN go, the others keep their order. *)
Definition dropna {R} (row_cells : R -> list float) (df : list R) : list R :=
  filter (fun r => no_nan (row_cells r)) df.

Definition is_empty {A} (l : list A) : bool :=
  match l with [] => true | _ => false end.

(** [data[name] = values]: the values must be as many as the rows. *)
Definition set_column {R S} (put : R -> float -> S) (df : list R) (values : list float)
  : string + list S :=
  if (length values =? length df)%nat then inr (zip_with put df values)
  else inl "Length of values does not match length of index".

Definition LOOKBACK_DAYS : nat := 30.

Definition PERCENTAGE_MOVES : list (nat * string) :=
  [ (0, "Neutral"); (1, "+3%"); (2, "+7%"); (3, "+10%"); (4, "+15%"); (5, "+30%");
    (6, "-3%"); (7, "-7%"); (8, "-10%"); (9, "-15%"); (10, "-30%") ]%nat.

(** [dict.get(key, default)]. *)
Fixpoint dict_get (d : list (nat * string)) (key : nat) (default : string) : string :=
  match d with
  | [] => default
  | (k, v) :: rest => if (k =? key)%nat then v else dict_get rest key default
  end.

(** ** numpy: slicing, reshape, argmax *)

Definition matrix : Type := list (list float).
Definition tensor3 : Type := list (list (list float)).

(** [a[-n:]]: the last [n] rows, all of them when there are fewer. *)
Definition last_rows {A} (n : nat) (a : list A) : list A := skipn (length a - n) a.

Fixpoint chunks {A} (size count : nat) (l : list A) : list (list A) :=
  match count with
  | O => []
  | S k => firstn size l :: chunks size k (skipn size l)
  end.

(** [a.reshape(d0, d1, d2)] on a two-dimensional array: the element count
    must agree, the elements keep their row-major order. *)
Definition reshape3 (d0 d1 d2 : nat) (a : matrix) : string + tensor3 :=
  let flat := concat a in
  if (length flat =? d0 * d1 * d2)%nat
  then inr (map (chunks d2 d1) (chunks (d1 * d2) d0 flat))
  else inl "cannot reshape array".

(** [np.argmax] on a vector: the first index of the maximum, a NaN counting
    as maximal; an empty vector raises. *)
Fixpoint argmax_scan (mp : Q) (max_ind i : nat) (l : list float) : nat :=
  match l with
  | [] => max_ind
  | None :: _ => i
  | Some x :: rest =>
      if Qle_bool x mp then argmax_scan mp max_ind (S i) rest
      else argmax_scan x i (S i) rest
  end.

Definition np_argmax (v : list float) : option nat :=
  match v with
  | [] => None
  | None :: _ => Some 0%nat
  | Some x :: rest => Some (argmax_scan x 0 1 rest)
  end.

(** ** The program *)

Inductive load_exn : Type :=
| FileNotFoundError
| OtherException (message : string).

(** [model.predict] and [scaler.transform]: a result or the message of the
    exception raised. *)
Definition predictor : Type := tensor3 -> string + matrix.
Definition scaler : Type := matrix -> string + matrix.

Section Program.

(** Python's [str.upper] and [str.strip]. *)
Variables str_upper str_strip : string -> string.
(** The [.1f] format of a float. *)
Variable format_1f : float -> string.
(** [yf.download(ticker, period="3mo")]: a frame or the exception raised. *)
Variable yf_download : string -> string + list bar.
(** The exception, if any, that the pandas and numpy calls inside the [try]
    block of [calculate_rsi] (of [calculate_macd]) raise on a series. *)
Variables rsi_raises macd_raises : list float -> option string.
(** [load_model(path)] and [joblib.load(path)]. *)
Variable load_model : string -> load_exn + predictor.
Variable joblib_load : string -> load_exn + scaler.

Definition get_stock_data (ticker : string) : run (option (list quote)) :=
  emit (YfDownload ticker "3mo") ;;
  match yf_download ticker with
  | inl e =>
      emit (ShowError "Data Fetch Error" ("Failed to fetch data: " ++ e)) ;;
      ret None
  | inr data =>
      if is_empty data then
        emit (ShowError "Data Fetch Error"
                ("Failed to fetch data: " ++ "No data found for the given ticker.")) ;;
        ret None
      else
        ret (Some (map (fun b => mkQuote (bar_close b) (bar_volume b))
                       (dropna bar_cells data)))
  end.

Definition calculate_rsi (data : list float) (window : nat) : run (list float) :=
  match rsi_raises data with
  | None => ret (rsi_formula window data)
  | Some e =>
      emit (ShowError "RSI Calculation Error" ("Error calculating RSI: " ++ e)) ;;
      ret (np_zeros (length data))
  end.

Definition calculate_macd (data : list float)
    (short_window long_window signal_window : nat) : run (list float) :=
  match macd_raises data with
  | None => ret (macd_formula short_window long_window signal_window data)
  | Some e =>
      emit (ShowError "MACD Calculation Error" ("Error calculating MACD: " ++ e)) ;;
      ret (np_zeros (length data))
  end.

(** Lines 79 to 85: the two indicator columns are set, then the warm-up
    rows are dropped. *)
Definition with_rsi (q : quote) (v : float) : quote * float := (q, v).
Definition with_macd (r : quote * float) (v : float) : features :=
  mkFeatures (q_close (fst r)) (q_volume (fst r)) (snd r) v.

Definition indicator_error {A} (e : string) : run A :=
  emit (ShowError "Indicator Error" ("Error calculating indicators: " ++ e)) ;;
  emit (ButtonState true) ;;
  leave IndicatorError.

Definition add_indicators (data : list quote) : run (list features) :=
  rsi <- calculate_rsi (map q_close data) 14 ;;
  match set_column with_rsi data rsi with
  | inl e => indicator_error e
  | inr data1 =>
      macd <- calculate_macd (map q_close data) 12 26 9 ;;
      match set_column with_macd data1 macd with
      | inl e => indicator_error e
      | inr data2 => ret (dropna cells data2)
      end
  end.

(** Lines 114 to 124. *)
Definition decide (ticker : string) (prediction : list float) : option TrendPrediction :=
  match np_argmax prediction with
  | None => None
  | Some best_class =>
      let confidence := fmul (nth best_class prediction NaN) (num 100) in
      let percentage_move := dict_get PERCENTAGE_MOVES best_class "Unknown" in
      let (result_text, result_color) :=
        if (best_class =? 0)%nat then
          (ticker ++ ": 🔍 Neutral trend.", "black")
        else
          let direction := if (best_class <=? 5)%nat then "up📈" else "down📉" in
          (ticker ++ " is likely to go " ++ direction ++ " " ++ percentage_move
             ++ " (" ++ format_1f confidence ++ "% confidence).",
           if (best_class <=? 5)%nat then "green" else "red") in
      Some (mkPrediction best_class confidence percentage_move result_text result_color)
  end.

Definition prediction_error {A} (e : string) : run A :=
  emit (ShowError "Prediction Error" ("Error during prediction: " ++ e)) ;;
  emit (ButtonState true) ;;
  leave PredictionError.

(** Line 107. *)
Definition extract_window (scaled_data : matrix) : string + tensor3 :=
  reshape3 1 LOOKBACK_DAYS 4 (last_rows LOOKBACK_DAYS scaled_data).

(** Lines 105 to 112. *)
Definition predict (model : predictor) (sc : scaler) (data : list features)
  : run (list float) :=
  emit ScalerTransform ;;
  match sc (map cells data) with
  | inl e => prediction_error e
  | inr scaled_data =>
      match extract_window scaled_data with
      | inl e => prediction_error e
      | inr X_input =>
          emit ModelPredict ;;
          match model X_input with
          | inl e => prediction_error e
          | inr [] => prediction_error "index 0 is out of bounds"
          | inr (prediction :: _) => ret prediction
          end
      end
  end.

(** Lines 93 to 103. *)
Definition load_failed {A} (e : load_exn) : run A :=
  match e with
  | FileNotFoundError =>
      emit (ShowError "File Error" "Model or scaler file not found.") ;;
      emit (ButtonState true) ;;
      leave FileError
  | OtherException msg =>
      emit (ShowError "Loading Error" ("Error loading model or scaler: " ++ msg)) ;;
      emit (ButtonState true) ;;
      leave LoadingError
  end.

Definition load_artifacts : run (predictor * scaler) :=
  emit (LoadModel "stock_trend_model.h5") ;;
  match load_model "stock_trend_model.h5" with
  | inl e => load_failed e
  | inr model =>
      emit (JoblibLoad "scaler.pkl") ;;
      match joblib_load "scaler.pkl" with
      | inl e => load_failed e
      | inr sc => ret (model, sc)
      end
  end.

(** Lines 87 to 127: what follows the assembly of the feature table. *)
Definition forecast (ticker : string) (data : list features) : run outcome :=
  (if (length data <? LOOKBACK_DAYS)%nat then
     emit (ShowWarning "Insufficient Data" "Not enough data for prediction.") ;;
     emit (ResultLabel "Insufficient data." "red") ;;
     emit (ButtonState true) ;;
     leave InsufficientData
   else ret tt) ;;
  ms <- load_artifacts ;;
  prediction <- predict (fst ms) (snd ms) data ;;
  match decide ticker prediction with
  | None => leave (Uncaught "attempt to get argmax of an empty sequence")
  | Some p =>
      emit (ResultLabel (result_text p) (result_color p)) ;;
      emit (ButtonState true) ;;
      ret (Done p)
  end.

(** The callback; [entry_text] is what [ticker_entry.get()] returns. *)
Definition predict_stock_trend (entry_text : string) : list event * outcome :=
  finish (
    let ticker := str_strip (str_upper entry_text) in
    (if String.eqb ticker "" then
       emit (ShowWarning "Input Error" "Please enter a stock ticker.") ;;
       leave InputError
     else ret tt) ;;
    emit (ButtonState false) ;;
    emit (ResultLabel "Processing..." "blue") ;;
    emit RootUpdate ;;
    fetched <- get_stock_data ticker ;;
    data <- match fetched with
            | Some (q :: rest) => ret (q :: rest)
            | _ =>
                emit (ResultLabel "Failed to retrieve stock data." "red") ;;
                emit (ButtonState true) ;;
                leave FetchFailed
            end ;;
    table <- add_indicators data ;;
    forecast ticker table).

End Program.

(** ** Reference definitions, after the specification *)

Module Spec.

(** Exponential moving average with smoothing weight [2/(span+1)], seeded
    by the first value, no bias adjustment. *)
Fixpoint ema_from (weight prev : Q) (xs : list Q) : list Q :=
  match xs with
  | [] => []
  | x :: rest =>
      let y := weight * x + (1 - weight) * prev in
      y :: ema_from weight y rest
  end.

Definition ema (span : nat) (xs : list Q) : list Q :=
  match xs with
  | [] => []
  | x0 :: rest => x0 :: ema_from (2 / (inject_Z (Z.of_nat span) + 1)) x0 rest
  end.

(** MACD line minus signal line. *)
Definition macd_oscillator (short long signal : nat) (closes : list Q) : list Q :=
  let macd_line := zip_with Qminus (ema short closes) (ema long closes) in
  let signal_line := ema signal macd_line in
  zip_with Qminus macd_line signal_line.

(** The label table and the direction rule of the decision mapper. *)
Definition labels : list string :=
  ["Neutral"; "+3%"; "+7%"; "+10%"; "+15%"; "+30%";
   "-3%"; "-7%"; "-10%"; "-15%"; "-30%"].

(** Class 0 is neutral, classes 1 to 5 point up, classes 6 to 10 down. *)
Definition direction_of (classIndex : nat) : option direction :=
  if (classIndex =? 0)%nat then Some Neutral
  else if (1 <=? classIndex)%nat && (classIndex <=? 5)%nat then Some Up
  else if (6 <=? classIndex)%nat && (classIndex <=? 10)%nat then Some Down
  else None.

Definition color_of (d : direction) : string :=
  match d with Neutral => "black" | Up => "green" | Down => "red" end.

End Spec.

(** ** Sample inputs *)

Definition series_of (l : list Z) : list float := map (fun z => num (inject_Z z)) l.

Definition quotes_of (l : list Z) : list quote :=
  map (fun z => mkQuote (num (inject_Z z)) (num 1000)) l.

Definition bars_of (l : list Z) : list bar :=
  map (fun z => mkBar (num (inject_Z z)) (num 1000) [num (inject_Z z)]) l.

(** Rising closes 1, 2, ..., n. *)
Definition rising (n : nat) : list Z := map Z.of_nat (seq 1 n).

(** Flat closes: n times 100. *)
Definition flat (n : nat) : list Z := repeat 100%Z n.

Definition no_fault : list float -> option string := fun _ => None.
Definition always_fault : list float -> option string := fun _ => Some "fault".

(** What a computation yields, and what it logs. *)
Definition returned {A} (m : run A) : option A :=
  match snd m with inr a => Some a | inl _ => None end.

Definition trace {A} (m : run A) : list event := fst m.

(** Lines 79 to 81 with the two indicator columns given. *)
Definition assemble (data : list quote) (rsi macd : list float) : string + list features :=
  match set_column with_rsi data rsi with
  | inl e => inl e
  | inr data1 =>
      match set_column with_macd data1 macd with
      | inl e => inl e
      | inr data2 => inr (dropna cells data2)
      end
  end.

(** The rows before the warm-up is dropped. *)
Definition all_rows (data : list quote) (rsi macd : list float) : list features :=
  zip_with with_macd (zip_with with_rsi data rsi) macd.

Definition quote_defined (q : quote) : Prop :=
  isnan (q_close q) = false /\ isnan (q_volume q) = false.

(** Calls to the model, the scaler and their loaders. *)
Definition is_collaborator_call (e : event) : bool :=
  match e with
  | LoadModel _ | JoblibLoad _ | ScalerTransform | ModelPredict => true
  | _ => false
  end.

(** Collaborators for the sample runs: a ticker typed in upper case without
    blanks (so [upper] and [strip] leave it as it is), a frame of [n] rising
    closes, a scaler that leaves the table as it is and a model that always
    answers with the same eleven probabilities. *)
Definition as_typed : string -> string := fun s => s.
Definition sample_format : float -> string := fun _ => "?".
Definition sample_download (n : nat) : string -> string + list bar :=
  fun _ => inr (bars_of (rising n)).
Definition flat_download (n : nat) : string -> string + list bar :=
  fun _ => inr (bars_of (flat n)).
Definition sample_weights : list Q :=
  map (fun z => inject_Z z / 100) [5; 10; 5; 40; 5; 5; 10; 5; 5; 5; 5]%Z.
Definition sample_probabilities : list float := map Some sample_weights.
Definition sample_model : predictor := fun _ => inr [sample_probabilities].
Definition identity_scaler : scaler := fun m => inr m.
Definition sample_load_model : string -> load_exn + predictor := fun _ => inr sample_model.
Definition sample_load_scaler : string -> load_exn + scaler := fun _ => inr identity_scaler.

(** A scaler that hands back only the first ten rows. *)
Definition truncating_scaler : scaler := fun m => inr (firstn 10 m).
Definition truncating_load_scaler : string -> load_exn + scaler :=
  fun _ => inr truncating_scaler.

(** The gains and the losses that [calculate_rsi] averages: the daily change
    where it is positive (negative), 0 elsewhere. *)
Definition daily_gains (data : list float) : list float :=
  where_ (map (fun d => fgt d (num 0)) (diff data)) (num 0) (diff data).

Definition daily_losses (data : list float) : list float :=
  where_ (map (fun d => flt d (num 0)) (diff data)) (num 0) (diff data).



(** The events every run with a ticker starts with. *)
Definition opening (ticker : string) : list event :=
  [ButtonState false; ResultLabel "Processing..." "blue"; RootUpdate;
   YfDownload ticker "3mo"].

(** The events of the handlers of lines 96 to 103 and of lines 109 to 112. *)
Definition load_error_events (e : load_exn) : list event :=
  match e with
  | FileNotFoundError =>
      [ShowError "File Error" "Model or scaler file not found."; ButtonState true]
  | OtherException msg =>
      [ShowError "Loading Error" ("Error loading model or scaler: " ++ msg);
       ButtonState true]
  end.

Definition load_error_outcome (e : load_exn) : outcome :=
  match e with FileNotFoundError => FileError | OtherException _ => LoadingError end.

Definition prediction_error_events (e : string) : list event :=
  [ShowError "Prediction Error" ("Error during prediction: " ++ e); ButtonState true].

Definition quote_of_bar (b : bar) : quote := mkQuote (bar_close b) (bar_volume b).

Definition insufficient_events : list event :=
  [ShowWarning "Insufficient Data" "Not enough data for prediction.";
   ResultLabel "Insufficient data." "red"; ButtonState true].

Definition fetch_failed_events : list event :=
  [ResultLabel "Failed to retrieve stock data." "red"; ButtonState true].

Definition is_dialog (e : event) : bool :=
  match e with ShowError _ _ | ShowWarning _ _ => true | _ => false end.

(** Calls that come after the model is loaded, and calls that use the
    scaler or the model. *)
Definition follows_model_load (e : event) : bool :=
  match e with
  | JoblibLoad _ | ScalerTransform | ModelPredict => true
  | _ => false
  end.

Definition is_inference (e : event) : bool :=
  match e with ScalerTransform | ModelPredict => true | _ => false end.

(** The events of a run that ends with the prediction [p]. *)
Definition completed_events (p : TrendPrediction) : list event :=
  [LoadModel "stock_trend_model.h5"; JoblibLoad "scaler.pkl";
   ScalerTransform; ModelPredict;
   ResultLabel (result_text p) (result_color p); ButtonState true].

Definition is_label (e : event) : bool :=
  match e with ResultLabel _ _ => true | _ => false end.

(** The collaborator calls of a complete run, in their order. *)
Definition collaborator_calls : list event :=
  [LoadModel "stock_trend_model.h5"; JoblibLoad "scaler.pkl";
   ScalerTransform; ModelPredict].

(** An outcome after which the label was never set again. *)
Definition leaves_label_stale (o : outcome) : bool :=
  match o with
  | FileError | LoadingError | PredictionError | Uncaught _ => true
  | _ => false
  end.

Definition missing_model : string -> load_exn + predictor :=
  fun _ => inl FileNotFoundError.

(** ** Lists *)

Lemma zip_with_length {A B C} (f : A -> B -> C) l r :
  length (zip_with f l r) = Nat.min (length l) (length r).
Proof. unfold zip_with. now rewrite length_map, length_combine. Qed.

Lemma nth_error_zip_with {A B C} (f : A -> B -> C) l r i a b :
  nth_error l i = Some a -> nth_error r i = Some b ->
  nth_error (zip_with f l r) i = Some (f a b).
Proof.
  revert r i; induction l as [|x l IH]; intros [|y r] [|i]; cbn; try discriminate.
  - now intros [= ->] [= ->].
  - intros Ha Hb. now apply IH.
Qed.

Lemma diff_length s : length (diff s) = length s.
Proof.
  destruct s as [|x s]; cbn; [reflexivity|].
  rewrite zip_with_length. cbn. f_equal. lia.
Qed.

Lemma rolling_mean_length w s : length (rolling_mean w s) = length s.
Proof. unfold rolling_mean. now rewrite length_map, length_seq. Qed.

Lemma ewm_loop_length alpha st s : length (ewm_loop alpha st s) = length s.
Proof. revert st; induction s; intros; cbn; auto. Qed.

Lemma ewm_mean_length span s : length (ewm_mean span s) = length s.
Proof. destruct s; cbn; [|rewrite ewm_loop_length]; reflexivity. Qed.

Lemma where_length cond other s :
  length cond = length s -> length (where_ cond other s) = length s.
Proof. intros H. unfold where_. rewrite zip_with_length. lia. Qed.

Lemma rsi_gain_length w data : length (rsi_gain w data) = length data.
Proof.
  unfold rsi_gain. rewrite rolling_mean_length, where_length;
    rewrite ?length_map; apply diff_length || reflexivity.
Qed.

Lemma rsi_loss_length w data : length (rsi_loss w data) = length data.
Proof.
  unfold rsi_loss. rewrite length_map, rolling_mean_length, where_length;
    rewrite ?length_map; apply diff_length || reflexivity.
Qed.

Lemma rsi_formula_length w data : length (rsi_formula w data) = length data.
Proof.
  unfold rsi_formula, np_where.
  rewrite length_map, !zip_with_length, length_map, rsi_gain_length, rsi_loss_length.
  lia.
Qed.

Lemma macd_formula_length a b c data : length (macd_formula a b c data) = length data.
Proof.
  unfold macd_formula.
  rewrite !zip_with_length, !ewm_mean_length, !zip_with_length, !ewm_mean_length. lia.
Qed.

Lemma np_zeros_length n : length (np_zeros n) = n.
Proof. apply repeat_length. Qed.

Lemma Forall_firstn_keep {A} (P : A -> Prop) n l :
  Forall P l -> Forall P (firstn n l).
Proof.
  intros H; revert n; induction H; intros [|n]; cbn; constructor; auto.
Qed.

Lemma Forall_skipn_keep {A} (P : A -> Prop) n l :
  Forall P l -> Forall P (skipn n l).
Proof.
  intros H; revert n; induction H; intros [|n]; cbn; auto.
Qed.

Lemma where_map (p : float -> bool) other s :
  where_ (map p s) other s = map (fun x => if p x then x else other) s.
Proof.
  unfold where_, zip_with. induction s as [|x s IH]; cbn; [reflexivity|].
  now rewrite IH.
Qed.

(** ** Rolling means *)

Lemma Qlt_bool_iff x y : Qlt_bool x y = true <-> x < y.
Proof.
  unfold Qlt_bool. rewrite negb_true_iff.
  split; intros H.
  - apply Qnot_le_lt. intros Hle. apply Qle_bool_iff in Hle. congruence.
  - destruct (Qle_bool y x) eqn:E; [|reflexivity].
    apply Qle_bool_iff in E. exfalso. eapply Qlt_not_le; eauto.
Qed.

Lemma gains_nonneg s :
  Forall (fun x => exists q, x = Some q /\ 0 <= q)
         (where_ (map (fun d => fgt d (num 0)) s) (num 0) s).
Proof.
  rewrite where_map. apply Forall_forall. intros x Hx.
  apply in_map_iff in Hx as [d [<- _]].
  destruct d as [q|]; cbn.
  - destruct (Qlt_bool 0 q) eqn:E.
    + exists q. split; [reflexivity|]. apply Qlt_bool_iff in E. now apply Qlt_le_weak.
    + exists 0. split; [reflexivity|]. apply Qle_refl.
  - exists 0. split; [reflexivity|]. apply Qle_refl.
Qed.

Lemma losses_nonpos s :
  Forall (fun x => exists q, x = Some q /\ q <= 0)
         (where_ (map (fun d => flt d (num 0)) s) (num 0) s).
Proof.
  rewrite where_map. apply Forall_forall. intros x Hx.
  apply in_map_iff in Hx as [d [<- _]].
  destruct d as [q|]; cbn.
  - destruct (Qlt_bool q 0) eqn:E.
    + exists q. split; [reflexivity|]. apply Qlt_bool_iff in E. now apply Qlt_le_weak.
    + exists 0. split; [reflexivity|]. apply Qle_refl.
  - exists 0. split; [reflexivity|]. apply Qle_refl.
Qed.

Lemma nobs_defined (P : Q -> Prop) l :
  Forall (fun x => exists q, x = Some q /\ P q) l -> nobs l = length l.
Proof.
  unfold nobs. induction 1 as [|x l [q [-> _]] _ IH]; cbn; [reflexivity|].
  now rewrite IH.
Qed.

Lemma fsum_nonneg l :
  Forall (fun x => exists q, x = Some q /\ 0 <= q) l -> 0 <= fsum l.
Proof.
  induction 1 as [|x l [q [-> Hq]] _ IH]; [apply Qle_refl|].
  change (fsum (Some q :: l)) with (q + fsum l). lra.
Qed.

Lemma fsum_nonpos l :
  Forall (fun x => exists q, x = Some q /\ q <= 0) l -> fsum l <= 0.
Proof.
  induction 1 as [|x l [q [-> Hq]] _ IH]; [apply Qle_refl|].
  change (fsum (Some q :: l)) with (q + fsum l). lra.
Qed.

Lemma inject_nat_pos n : (0 < n)%nat -> 0 < inject_Z (Z.of_nat n).
Proof.
  intros H. change 0 with (inject_Z 0). rewrite <- Zlt_Qlt. lia.
Qed.

Lemma window_at_length w i (s : list float) :
  (i < length s)%nat -> length (window_at w i s) = Nat.min (S i) w.
Proof.
  intros H. unfold window_at. rewrite length_skipn, length_firstn. lia.
Qed.

Lemma rolling_mean_nth w s i :
  (i < length s)%nat ->
  nth_error (rolling_mean w s) i = Some (window_mean w (window_at w i s)).
Proof.
  intros H. unfold rolling_mean.
  rewrite nth_error_map, nth_error_seq.
  destruct (Nat.ltb_spec i (length s)); [reflexivity | lia].
Qed.

(** During the warm-up the window is too short: the mean is NaN. *)
Lemma window_mean_warmup (P : Q -> Prop) w l :
  Forall (fun x => exists q, x = Some q /\ P q) l ->
  (length l < w)%nat -> window_mean w l = NaN.
Proof.
  intros Hl Hw. unfold window_mean. rewrite (nobs_defined _ Hl).
  destruct (Nat.ltb_spec (length l) w); [reflexivity | lia].
Qed.

(** Once the window is full the mean is its sum over its size. *)
Lemma window_mean_full (P : Q -> Prop) w l :
  Forall (fun x => exists q, x = Some q /\ P q) l ->
  (0 < w)%nat -> (w <= length l)%nat ->
  window_mean w l = Some (fsum l / inject_Z (Z.of_nat (length l))).
Proof.
  intros Hl Hpos Hw. unfold window_mean. rewrite (nobs_defined _ Hl).
  destruct (Nat.ltb_spec (length l) w); [lia|].
  cbn. destruct (Qeq_bool (inject_Z (Z.of_nat (length l))) 0) eqn:E; [|reflexivity].
  apply Qeq_bool_iff in E.
  pose proof (@inject_nat_pos (length l) ltac:(lia)) as Hp.
  rewrite E in Hp. exfalso. revert Hp. apply Qlt_irrefl.
Qed.

(** ** RSI, entry by entry *)

Lemma rsi_gain_warmup w data i :
  (i < length data)%nat -> (S i < w)%nat ->
  nth_error (rsi_gain w data) i = Some NaN.
Proof.
  intros Hi Hw. unfold rsi_gain.
  pose proof (gains_nonneg (diff data)) as Hg.
  set (s := where_ _ _ _) in *.
  assert (Hs : length s = length data).
  { unfold s. rewrite where_length; rewrite ?length_map; auto using diff_length. }
  rewrite rolling_mean_nth by lia. f_equal.
  apply window_mean_warmup with (P := fun q => 0 <= q).
  - unfold window_at. now apply Forall_skipn_keep, Forall_firstn_keep.
  - rewrite window_at_length; lia.
Qed.

Lemma rsi_gain_full w data i :
  (i < length data)%nat -> (0 < w)%nat -> (w <= S i)%nat ->
  exists G, 0 <= G /\ nth_error (rsi_gain w data) i = Some (Some G).
Proof.
  intros Hi Hpos Hw. unfold rsi_gain.
  pose proof (gains_nonneg (diff data)) as Hg.
  set (s := where_ _ _ _) in *.
  assert (Hs : length s = length data).
  { unfold s. rewrite where_length; rewrite ?length_map; auto using diff_length. }
  assert (Hwin : Forall (fun x => exists q, x = Some q /\ 0 <= q) (window_at w i s)).
  { unfold window_at. now apply Forall_skipn_keep, Forall_firstn_keep. }
  assert (Hlen : length (window_at w i s) = w).
  { rewrite window_at_length; lia. }
  exists (fsum (window_at w i s) / inject_Z (Z.of_nat (length (window_at w i s)))).
  split; [|rewrite rolling_mean_nth by lia; f_equal;
           apply window_mean_full with (P := fun q => 0 <= q);
           [exact Hwin | exact Hpos | apply Nat.eq_le_incl; symmetry; exact Hlen]].
  apply Qle_shift_div_l.
  - apply inject_nat_pos. lia.
  - rewrite Qmult_0_l. now apply fsum_nonneg.
Qed.

Lemma rsi_loss_warmup w data i :
  (i < length data)%nat -> (S i < w)%nat ->
  nth_error (rsi_loss w data) i = Some NaN.
Proof.
  intros Hi Hw. unfold rsi_loss.
  pose proof (losses_nonpos (diff data)) as Hg.
  set (s := where_ _ _ _) in *.
  assert (Hs : length s = length data).
  { unfold s. rewrite where_length; rewrite ?length_map; auto using diff_length. }
  apply map_nth_error with (f := fneg) (d := NaN).
  rewrite rolling_mean_nth by lia. f_equal.
  apply window_mean_warmup with (P := fun q => q <= 0).
  - unfold window_at. now apply Forall_skipn_keep, Forall_firstn_keep.
  - rewrite window_at_length; lia.
Qed.

Lemma rsi_loss_full w data i :
  (i < length data)%nat -> (0 < w)%nat -> (w <= S i)%nat ->
  exists L, 0 <= L /\ nth_error (rsi_loss w data) i = Some (Some L).
Proof.
  intros Hi Hpos Hw. unfold rsi_loss.
  pose proof (losses_nonpos (diff data)) as Hg.
  set (s := where_ _ _ _) in *.
  assert (Hs : length s = length data).
  { unfold s. rewrite where_length; rewrite ?length_map; auto using diff_length. }
  assert (Hwin : Forall (fun x => exists q, x = Some q /\ q <= 0) (window_at w i s)).
  { unfold window_at. now apply Forall_skipn_keep, Forall_firstn_keep. }
  assert (Hlen : length (window_at w i s) = w).
  { rewrite window_at_length; lia. }
  exists (- (fsum (window_at w i s) / inject_Z (Z.of_nat (length (window_at w i s))))).
  split.
  - assert (fsum (window_at w i s) / inject_Z (Z.of_nat (length (window_at w i s))) <= 0).
    { apply Qle_shift_div_r.
      - apply inject_nat_pos. lia.
      - rewrite Qmult_0_l. now apply fsum_nonpos. }
    lra.
  - apply map_nth_error with (f := fneg)
      (d := Some (fsum (window_at w i s) / inject_Z (Z.of_nat (length (window_at w i s))))).
    rewrite rolling_mean_nth by lia. f_equal.
    apply window_mean_full with (P := fun q => q <= 0); [exact Hwin | exact Hpos | apply Nat.eq_le_incl; symmetry; exact Hlen].
Qed.

(** The RSI value from the two averages. *)
Lemma rsi_formula_nth w data i g l :
  nth_error (rsi_gain w data) i = Some g ->
  nth_error (rsi_loss w data) i = Some l ->
  nth_error (rsi_formula w data) i =
    Some (fsub (num 100)
            (fdiv (num 100)
               (fadd (num 1) (if feqb l (num 0) then num 0 else fdiv g l)))).
Proof.
  intros Hg Hl. unfold rsi_formula.
  apply map_nth_error with
    (f := fun r => fsub (num 100) (fdiv (num 100) (fadd (num 1) r))).
  unfold np_where.
  apply (nth_error_zip_with (fun (c : bool) y => if c then num 0 else y)).
  - now apply map_nth_error with (f := fun l => feqb l (num 0)).
  - now apply nth_error_zip_with.
Qed.

Lemma rsi_formula_warmup w data i :
  (i < length data)%nat -> (S i < w)%nat ->
  nth_error (rsi_formula w data) i = Some NaN.
Proof.
  intros Hi Hw.
  rewrite (@rsi_formula_nth w data i NaN NaN (@rsi_gain_warmup w data i Hi Hw) (@rsi_loss_warmup w data i Hi Hw)).
  reflexivity.
Qed.

Lemma rsi_value_range G L :
  0 <= G -> 0 <= L ->
  exists r,
    fsub (num 100)
      (fdiv (num 100)
         (fadd (num 1) (if feqb (Some L) (num 0) then num 0 else fdiv (Some G) (Some L))))
    = Some r /\ 0 <= r <= 100 /\ (L == 0 -> r == 0).
Proof.
  intros HG HL. cbv [fsub fdiv fadd lift2 num feqb NaN].
  destruct (Qeq_bool L 0) eqn:E.
  - destruct (Qeq_bool (1 + 0) 0) eqn:E1.
    { apply Qeq_bool_iff in E1. lra. }
    exists (100 - 100 / (1 + 0)). split; [reflexivity|].
    assert (100 - 100 / (1 + 0) == 0) as -> by (now field).
    repeat split; lra.
  - apply Qeq_bool_neq in E.
    assert (HLpos : 0 < L).
    { destruct (Qle_lt_or_eq _ _ HL) as [?|Heq]; [assumption|].
      exfalso; apply E; now symmetry. }
    assert (Hrs : 0 <= G / L).
    { apply Qle_shift_div_l; [assumption|]. now rewrite Qmult_0_l. }
    destruct (Qeq_bool (1 + G / L) 0) eqn:E1.
    { apply Qeq_bool_iff in E1. lra. }
    exists (100 - 100 / (1 + G / L)). split; [reflexivity|].
    assert (H1 : 100 / (1 + G / L) <= 100).
    { apply Qle_shift_div_r; lra. }
    assert (H2 : 0 <= 100 / (1 + G / L)).
    { apply Qle_shift_div_l; lra. }
    repeat split; try lra.
Qed.

Lemma np_zeros_nth n i :
  (i < n)%nat -> nth_error (np_zeros n) i = Some (num 0).
Proof.
  intros H. unfold np_zeros. now apply nth_error_repeat.
Qed.

Lemma nth_error_in_range {A} (l : list A) i x :
  nth_error l i = Some x -> (i < length l)%nat.
Proof. intros H. apply nth_error_Some. congruence. Qed.

(** C3: the RSI series is as long as the close series, every defined entry
    lies in [0, 100], and an entry whose trailing 14-day average loss is zero
    is exactly zero (whether or not the computation faulted). *)
Theorem rsi_length_range_zero_loss (rsi_raises : list float -> option string)
    (data : list float) :
  exists rsi,
    returned (calculate_rsi rsi_raises data 14) = Some rsi /\
    length rsi = length data /\
    (forall i x, nth_error rsi i = Some (Some x) -> 0 <= x <= 100) /\
    (forall i l, nth_error (rsi_loss 14 data) i = Some (Some l) -> l == 0 ->
                 exists x, nth_error rsi i = Some (Some x) /\ x == 0).
Proof.
  unfold calculate_rsi. destruct (rsi_raises data) as [e|].
  - exists (np_zeros (length data)). split; [reflexivity|].
    split; [apply np_zeros_length|]. split.
    + intros i x Hx. pose proof (@nth_error_in_range _ _ _ _ Hx) as Hi.
      rewrite np_zeros_length in Hi. rewrite np_zeros_nth in Hx by assumption.
      injection Hx as <-. lra.
    + intros i l Hl _. pose proof (@nth_error_in_range _ _ _ _ Hl) as Hi.
      rewrite rsi_loss_length in Hi. exists 0.
      split; [now apply np_zeros_nth | reflexivity].
  - exists (rsi_formula 14 data). split; [reflexivity|].
    split; [apply rsi_formula_length|]. split.
    + intros i x Hx. pose proof (@nth_error_in_range _ _ _ _ Hx) as Hi.
      rewrite rsi_formula_length in Hi.
      destruct (Nat.lt_ge_cases (S i) 14) as [Hw|Hw].
      * rewrite rsi_formula_warmup in Hx by assumption. discriminate.
      * destruct (@rsi_gain_full 14 data i Hi ltac:(lia) Hw) as [G [HG HGn]].
        destruct (@rsi_loss_full 14 data i Hi ltac:(lia) Hw) as [L [HL HLn]].
        rewrite (@rsi_formula_nth _ _ _ _ _ HGn HLn) in Hx.
        destruct (@rsi_value_range _ _ HG HL) as [r [Hr [Hrange _]]].
        rewrite Hr in Hx. injection Hx as <-. exact Hrange.
    + intros i l Hl Hz. pose proof (@nth_error_in_range _ _ _ _ Hl) as Hi.
      rewrite rsi_loss_length in Hi.
      destruct (Nat.lt_ge_cases (S i) 14) as [Hw|Hw].
      * rewrite rsi_loss_warmup in Hl by assumption. discriminate.
      * destruct (@rsi_gain_full 14 data i Hi ltac:(lia) Hw) as [G [HG HGn]].
        destruct (@rsi_loss_full 14 data i Hi ltac:(lia) Hw) as [L [HL HLn]].
        assert (L = l) by congruence. subst L.
        destruct (@rsi_value_range _ _ HG HL) as [r [Hr [_ Hzero]]].
        exists r. split; [|now apply Hzero].
        rewrite (@rsi_formula_nth _ _ _ _ _ HGn HLn). now rewrite Hr.
Qed.

Lemma rsi_length_range_zero_loss_witness :
  exists rsi,
    returned (calculate_rsi no_fault (series_of (rising 16)) 14) = Some rsi /\
    length rsi = length (series_of (rising 16)) /\
    (forall i x, nth_error rsi i = Some (Some x) -> 0 <= x <= 100) /\
    (forall i l, nth_error (rsi_loss 14 (series_of (rising 16))) i = Some (Some l) ->
                 l == 0 -> exists x, nth_error rsi i = Some (Some x) /\ x == 0).
Proof.
  apply (rsi_length_range_zero_loss no_fault (series_of (rising 16))).
Defined.

(** On rising closes there is no loss in any window: the convention [rs = 0]
    applies and the first defined entry of the RSI is 0. *)
Example rising_series_has_zero_rsi :
  nth_error (rsi_loss 14 (series_of (rising 16))) 13 = Some (Some (- (0 / 14))) /\
  nth_error (rsi_formula 14 (series_of (rising 16))) 12 = Some NaN /\
  exists x, nth_error (rsi_formula 14 (series_of (rising 16))) 13 = Some (Some x) /\ x == 0.
Proof.
  split; [vm_compute; reflexivity|]. split; [vm_compute; reflexivity|].
  eexists. split; [vm_compute; reflexivity|]. reflexivity.
Qed.

(** C7: without a fault, exactly the first [window - 1] entries of the RSI
    series are undefined and every later entry is defined. *)
Theorem rsi_warmup_is_window_minus_one (rsi_raises : list float -> option string)
    (data : list float) (window : nat) :
  rsi_raises data = None ->
  (0 < window)%nat ->
  exists rsi,
    returned (calculate_rsi rsi_raises data window) = Some rsi /\
    length rsi = length data /\
    forall i, (i < length data)%nat ->
      exists v, nth_error rsi i = Some v /\
                (isnan v = true <-> (i < window - 1)%nat).
Proof.
  intros Hok Hpos. unfold calculate_rsi. rewrite Hok.
  exists (rsi_formula window data). split; [reflexivity|].
  split; [apply rsi_formula_length|].
  intros i Hi. destruct (Nat.lt_ge_cases (S i) window) as [Hw|Hw].
  - exists NaN. split; [now apply rsi_formula_warmup|].
    cbn. split; intros; [lia | reflexivity].
  - destruct (@rsi_gain_full window data i Hi Hpos Hw) as [G [HG HGn]].
    destruct (@rsi_loss_full window data i Hi Hpos Hw) as [L [HL HLn]].
    destruct (@rsi_value_range _ _ HG HL) as [r [Hr _]].
    exists (Some r). split.
    + rewrite (@rsi_formula_nth _ _ _ _ _ HGn HLn). now rewrite Hr.
    + cbn. split; intros; [discriminate | lia].
Qed.

Lemma rsi_warmup_is_window_minus_one_witness :
  exists rsi,
    returned (calculate_rsi no_fault (series_of (rising 16)) 14) = Some rsi /\
    length rsi = length (series_of (rising 16)) /\
    forall i, (i < length (series_of (rising 16)))%nat ->
      exists v, nth_error rsi i = Some v /\
                (isnan v = true <-> (i < 14 - 1)%nat).
Proof.
  apply (@rsi_warmup_is_window_minus_one no_fault (series_of (rising 16)) 14).
  - reflexivity.
  - lia.
Defined.

(** ** Exponential moving averages *)

Lemma series_eq_defined_refl qs : series_eq (map Some qs) (map Some qs).
Proof.
  induction qs; cbn; constructor; auto. cbn. reflexivity.
Qed.

Lemma series_eq_cons_inv xs y ys :
  series_eq xs (map Some (y :: ys)) ->
  exists c xs', xs = Some c :: xs' /\ c == y /\ series_eq xs' (map Some ys).
Proof.
  intros H. inversion H as [|x y' xs' ys' Hxy Hrest]; subst.
  destruct x as [c|]; [|contradiction].
  exists c, xs'. repeat split; assumption.
Qed.

Lemma series_eq_length xs ys : series_eq xs ys -> length xs = length ys.
Proof. induction 1; cbn; congruence. Qed.

(** One step of pandas' loop on a defined observation is one step of the
    textbook recurrence. *)
Lemma ewm_step_defined alpha wv n c :
  exists wv',
    ewm_step alpha (mk_ewm (Some wv) 1 n) (Some c) = mk_ewm (Some wv') 1 (n + 1) /\
    wv' == alpha * c + (1 - alpha) * wv.
Proof.
  unfold ewm_step. cbn [weighted old_wt ewm_nobs isnan].
  destruct (Qeq_bool wv c) eqn:E.
  - exists wv. split; [reflexivity|].
    apply Qeq_bool_iff in E. rewrite <- E. ring.
  - eexists. split; [reflexivity|]. field. lra.
Qed.

Lemma ewm_loop_refines alpha wv prev n xs ys :
  wv == prev -> (1 <= n)%nat ->
  series_eq xs (map Some ys) ->
  series_eq (ewm_loop alpha (mk_ewm (Some wv) 1 n) xs)
            (map Some (Spec.ema_from alpha prev ys)).
Proof.
  revert wv prev n xs. induction ys as [|y ys IH]; intros wv prev n xs Hwv Hn Hxs.
  - inversion Hxs; subst. constructor.
  - apply series_eq_cons_inv in Hxs as [c [xs' [-> [Hc Hrest]]]].
    cbn [ewm_loop Spec.ema_from map].
    destruct (ewm_step_defined alpha wv n c) as [wv' [-> Hwv']].
    assert (Heq : wv' == alpha * y + (1 - alpha) * prev).
    { rewrite Hwv', Hc, Hwv. reflexivity. }
    constructor.
    + unfold ewm_out. cbn [ewm_nobs weighted].
      destruct (Nat.leb_spec 1 (n + 1)); [exact Heq | lia].
    + apply IH; [exact Heq | lia | exact Hrest].
Qed.

Lemma ewm_mean_refines span xs ys :
  series_eq xs (map Some ys) ->
  series_eq (ewm_mean span xs) (map Some (Spec.ema span ys)).
Proof.
  intros Hxs. destruct ys as [|y ys].
  - inversion Hxs; subst. constructor.
  - apply series_eq_cons_inv in Hxs as [c [xs' [-> [Hc Hrest]]]].
    cbn [ewm_mean Spec.ema map isnan]. constructor.
    + exact Hc.
    + apply ewm_loop_refines; [exact Hc | lia | exact Hrest].
Qed.

Lemma zip_with_fsub_refines xs xs' ys ys' :
  series_eq xs (map Some ys) -> series_eq xs' (map Some ys') ->
  series_eq (zip_with fsub xs xs') (map Some (zip_with Qminus ys ys')).
Proof.
  revert xs xs' ys'. induction ys as [|y ys IH]; intros xs xs' ys' H H'.
  - inversion H; subst. constructor.
  - apply series_eq_cons_inv in H as [c [xs1 [-> [Hc Hrest]]]].
    destruct ys' as [|y' ys'].
    + inversion H'; subst. constructor.
    + apply series_eq_cons_inv in H' as [c' [xs2 [-> [Hc' Hrest']]]].
      unfold zip_with. cbn. constructor.
      * cbn. now rewrite Hc, Hc'.
      * apply IH; assumption.
Qed.

Lemma macd_formula_refines a b c qs :
  series_eq (macd_formula a b c (map Some qs))
            (map Some (Spec.macd_oscillator a b c qs)).
Proof.
  unfold macd_formula, Spec.macd_oscillator.
  pose proof (series_eq_defined_refl qs) as Hq.
  assert (Hline : series_eq
            (zip_with fsub (ewm_mean a (map Some qs)) (ewm_mean b (map Some qs)))
            (map Some (zip_with Qminus (Spec.ema a qs) (Spec.ema b qs)))).
  { apply zip_with_fsub_refines; now apply ewm_mean_refines. }
  apply zip_with_fsub_refines; [exact Hline|].
  now apply ewm_mean_refines.
Qed.

(** C6: the MACD oscillator is as long as the close series whatever the
    values are, and on a series of numbers it is the MACD line (short EMA
    minus long EMA) minus the signal-window EMA of that line, each EMA with
    weight 2/(span+1), seeded by the first value, without bias adjustment. *)
Theorem macd_length_and_formula (macd_raises : list float -> option string)
    (short_window long_window signal_window : nat) :
  (forall data, exists macd,
      returned (calculate_macd macd_raises data short_window long_window signal_window)
        = Some macd /\
      length macd = length data) /\
  (forall closes, macd_raises (map Some closes) = None ->
     exists macd,
       returned (calculate_macd macd_raises (map Some closes)
                   short_window long_window signal_window) = Some macd /\
       series_eq macd
         (map Some (Spec.macd_oscillator short_window long_window signal_window closes))).
Proof.
  split.
  - intros data. unfold calculate_macd. destruct (macd_raises data).
    + eexists. split; [reflexivity | apply np_zeros_length].
    + eexists. split; [reflexivity | apply macd_formula_length].
  - intros closes Hok. unfold calculate_macd. rewrite Hok.
    eexists. split; [reflexivity | apply macd_formula_refines].
Qed.

Lemma macd_length_and_formula_witness :
  no_fault (map Some (map inject_Z (rising 40))) = None
  /\ exists macd,
       returned (calculate_macd no_fault (map Some (map inject_Z (rising 40))) 12 26 9)
         = Some macd /\
       series_eq macd
         (map Some (Spec.macd_oscillator 12 26 9 (map inject_Z (rising 40)))).
Proof.
  split; [reflexivity|].
  apply (proj2 (macd_length_and_formula no_fault 12 26 9)). reflexivity.
Defined.

(** ** Assembling the feature table *)

Lemma nth_error_zip_with_inv {A B C} (f : A -> B -> C) l r i x :
  nth_error (zip_with f l r) i = Some x ->
  exists a b, nth_error l i = Some a /\ nth_error r i = Some b /\ x = f a b.
Proof.
  unfold zip_with. revert r i; induction l as [|a l IH]; intros [|b r] [|i]; cbn;
    try discriminate.
  - intros [= <-]. now exists a, b.
  - intros H. now apply IH.
Qed.

(** A filter that rejects exactly a prefix is a [skipn]. *)
Lemma filter_rejects_prefix {A} (p : A -> bool) l k :
  (forall i x, nth_error l i = Some x -> (p x = false <-> (i < k)%nat)) ->
  filter p l = skipn k l.
Proof.
  revert k; induction l as [|a l IH]; intros k H.
  - now destruct k.
  - destruct k as [|k]; cbn [filter skipn].
    + assert (Ha : p a = true).
      { destruct (p a) eqn:E; [reflexivity|].
        apply (H 0%nat a eq_refl) in E. lia. }
      rewrite Ha. f_equal. rewrite (IH 0%nat); [reflexivity|].
      intros i x Hx. specialize (H (S i) x Hx). split; intros; [|lia].
      apply H in H0. lia.
    + assert (Ha : p a = false) by (apply (H 0%nat a eq_refl); lia).
      rewrite Ha. apply IH. intros i x Hx. specialize (H (S i) x Hx).
      rewrite H. lia.
Qed.

Lemma assemble_drops_warmup data rsi macd w1 w2 :
  Forall quote_defined data ->
  length rsi = length data ->
  length macd = length data ->
  (forall i v, nth_error rsi i = Some v -> (isnan v = true <-> (i < w1)%nat)) ->
  (forall i v, nth_error macd i = Some v -> (isnan v = true <-> (i < w2)%nat)) ->
  assemble data rsi macd = inr (skipn (Nat.max w1 w2) (all_rows data rsi macd)) /\
  length (skipn (Nat.max w1 w2) (all_rows data rsi macd))
    = (length data - Nat.max w1 w2)%nat.
Proof.
  intros Hdata Hl1 Hl2 Hw1 Hw2. unfold assemble, set_column.
  rewrite Hl1, Nat.eqb_refl, zip_with_length, Hl1, Nat.min_id, Hl2, Nat.eqb_refl.
  fold (all_rows data rsi macd). split.
  - f_equal. unfold dropna. apply filter_rejects_prefix.
    intros i x Hx. unfold all_rows in Hx.
    apply nth_error_zip_with_inv in Hx as [[q r] [m [Hqr [Hm ->]]]].
    apply nth_error_zip_with_inv in Hqr as [q' [r' [Hq [Hr [= -> ->]]]]].
    specialize (Hw1 i r' Hr). specialize (Hw2 i m Hm).
    rewrite Forall_forall in Hdata.
    destruct (Hdata q' (nth_error_In _ _ Hq)) as [Hc Hv].
    unfold no_nan, cells, with_macd, with_rsi. cbn.
    rewrite Hc, Hv. cbn.
    destruct (isnan r'), (isnan m); cbn; split; intros; try lia; try discriminate;
      try reflexivity.
  - rewrite length_skipn. unfold all_rows.
    rewrite !zip_with_length. lia.
Qed.

(** C4: when the RSI column has [w1] leading undefined entries and the MACD
    column [w2], the assembled table has exactly [N - max w1 w2] rows, the
    surviving rows in their original order. *)
Theorem assemble_row_count (data : list quote) (rsi macd : list float) (w1 w2 : nat) :
  Forall quote_defined data ->
  length rsi = length data ->
  length macd = length data ->
  (forall i v, nth_error rsi i = Some v -> (isnan v = true <-> (i < w1)%nat)) ->
  (forall i v, nth_error macd i = Some v -> (isnan v = true <-> (i < w2)%nat)) ->
  exists table,
    assemble data rsi macd = inr table /\
    length table = (length data - Nat.max w1 w2)%nat /\
    table = skipn (Nat.max w1 w2) (all_rows data rsi macd).
Proof.
  intros Hdata Hl1 Hl2 Hw1 Hw2.
  destruct (@assemble_drops_warmup data rsi macd w1 w2 Hdata Hl1 Hl2 Hw1 Hw2) as [Ha Hlen].
  eexists. split; [exact Ha|]. split; [exact Hlen | reflexivity].
Qed.

Ltac by_index i H :=
  repeat (destruct i as [|i];
          [cbn in H; injection H as <-; cbn; split; intros;
           (lia || discriminate || reflexivity) | ]);
  destruct i; cbn in H; discriminate.

Lemma assemble_row_count_witness :
  exists table,
    assemble (quotes_of [1; 2; 3; 4]%Z)
             [NaN; NaN; num 50; num 60] [NaN; num 1; num 2; num 3] = inr table /\
    length table = (length (quotes_of [1; 2; 3; 4]%Z) - Nat.max 2 1)%nat /\
    table = skipn (Nat.max 2 1)
              (all_rows (quotes_of [1; 2; 3; 4]%Z)
                        [NaN; NaN; num 50; num 60] [NaN; num 1; num 2; num 3]).
Proof.
  apply (@assemble_row_count (quotes_of [1; 2; 3; 4]%Z)
           [NaN; NaN; num 50; num 60] [NaN; num 1; num 2; num 3] 2 1).
  - repeat constructor.
  - reflexivity.
  - reflexivity.
  - intros i v H. by_index i H.
  - intros i v H. by_index i H.
Defined.

(** ** The indicator stage *)

Lemma calculate_rsi_cases rr data w :
  (rr data = None /\ calculate_rsi rr data w = ([], inr (rsi_formula w data))) \/
  (exists e, rr data = Some e /\
     calculate_rsi rr data w =
       ([ShowError "RSI Calculation Error" ("Error calculating RSI: " ++ e)],
        inr (np_zeros (length data)))).
Proof.
  unfold calculate_rsi. destruct (rr data) as [e|]; [right; exists e | left]; auto.
Qed.

Lemma calculate_macd_cases mr data a b c :
  (mr data = None /\ calculate_macd mr data a b c = ([], inr (macd_formula a b c data))) \/
  (exists e, mr data = Some e /\
     calculate_macd mr data a b c =
       ([ShowError "MACD Calculation Error" ("Error calculating MACD: " ++ e)],
        inr (np_zeros (length data)))).
Proof.
  unfold calculate_macd. destruct (mr data) as [e|]; [right; exists e | left]; auto.
Qed.

(** Both indicators come back as long as the series, so the two column
    assignments succeed and the stage yields the assembled table. *)
Lemma add_indicators_assembles rr mr data t1 rsi t2 macd :
  calculate_rsi rr (map q_close data) 14 = (t1, inr rsi) ->
  calculate_macd mr (map q_close data) 12 26 9 = (t2, inr macd) ->
  length rsi = length data ->
  length macd = length data ->
  add_indicators rr mr data = ((t1 ++ t2)%list, inr (dropna cells (all_rows data rsi macd)))
  /\ assemble data rsi macd = inr (dropna cells (all_rows data rsi macd)).
Proof.
  intros H1 H2 Hl1 Hl2. unfold add_indicators, assemble, bind, set_column.
  rewrite H1, Hl1, Nat.eqb_refl, H2, zip_with_length, Hl1, Nat.min_id, Hl2, Nat.eqb_refl.
  unfold prepend, ret. cbn [fst snd]. rewrite app_nil_r. split; reflexivity.
Qed.

Lemma add_indicators_returns rr mr data :
  exists t1 rsi t2 macd,
    calculate_rsi rr (map q_close data) 14 = (t1, inr rsi) /\
    calculate_macd mr (map q_close data) 12 26 9 = (t2, inr macd) /\
    length rsi = length data /\ length macd = length data /\
    add_indicators rr mr data = ((t1 ++ t2)%list, inr (dropna cells (all_rows data rsi macd))) /\
    (forall e, In e (t1 ++ t2)%list -> is_collaborator_call e = false).
Proof.
  destruct (calculate_rsi_cases rr (map q_close data) 14) as [[_ H1]|[e1 [_ H1]]];
  destruct (calculate_macd_cases mr (map q_close data) 12 26 9) as [[_ H2]|[e2 [_ H2]]];
  do 4 eexists; (split; [exact H1|]); (split; [exact H2|]);
  assert (Hlen : forall l : list float,
             length l = length (map q_close data) -> length l = length data)
    by (intros l ->; apply length_map);
  (split; [apply Hlen;
           rewrite ?rsi_formula_length, ?np_zeros_length; reflexivity|]);
  (split; [apply Hlen;
           rewrite ?macd_formula_length, ?np_zeros_length; reflexivity|]);
  (split; [refine (proj1 (@add_indicators_assembles _ _ _ _ _ _ _ H1 H2 _ _));
           apply Hlen;
           rewrite ?rsi_formula_length, ?macd_formula_length, ?np_zeros_length;
           reflexivity|]);
  intros e He; cbn in He; intuition (subst; reflexivity).
Qed.

Lemma dropna_length_le {R} (row_cells : R -> list float) df :
  (length (dropna row_cells df) <= length df)%nat.
Proof. apply filter_length_le. Qed.

Lemma all_rows_length data rsi macd :
  length rsi = length data -> length macd = length data ->
  length (all_rows data rsi macd) = length data.
Proof.
  intros H1 H2. unfold all_rows. rewrite !zip_with_length. lia.
Qed.

Lemma rsi_formula_defined_iff w data i v :
  (0 < w)%nat ->
  nth_error (rsi_formula w data) i = Some v ->
  (isnan v = true <-> (i < w - 1)%nat).
Proof.
  intros Hpos Hv. pose proof (@nth_error_in_range _ _ _ _ Hv) as Hi.
  rewrite rsi_formula_length in Hi.
  destruct (Nat.lt_ge_cases (S i) w) as [Hw|Hw].
  - rewrite rsi_formula_warmup in Hv by assumption. injection Hv as <-.
    cbn. split; intros; [lia | reflexivity].
  - destruct (@rsi_gain_full w data i Hi Hpos Hw) as [G [HG HGn]].
    destruct (@rsi_loss_full w data i Hi Hpos Hw) as [L [HL HLn]].
    destruct (@rsi_value_range _ _ HG HL) as [r [Hr _]].
    rewrite (@rsi_formula_nth _ _ _ _ _ HGn HLn), Hr in Hv. injection Hv as <-.
    cbn. split; intros; [discriminate | lia].
Qed.

Lemma closes_defined data :
  Forall quote_defined data -> exists qs, map q_close data = map Some qs.
Proof.
  induction 1 as [|q data [Hc _] _ [qs IH]].
  - now exists [].
  - destruct (q_close q) as [c|] eqn:E; [|discriminate].
    exists (c :: qs). cbn. now rewrite E, IH.
Qed.

Lemma series_eq_defined xs ys :
  series_eq xs (map Some ys) -> Forall (fun v => isnan v = false) xs.
Proof.
  revert xs; induction ys as [|y ys IH]; intros xs H.
  - inversion H; subst. constructor.
  - apply series_eq_cons_inv in H as [c [xs' [-> [_ Hrest]]]].
    constructor; [reflexivity | now apply IH].
Qed.

Lemma macd_formula_defined a b c qs :
  Forall (fun v => isnan v = false) (macd_formula a b c (map Some qs)).
Proof. eapply series_eq_defined, macd_formula_refines. Qed.

Lemma defined_iff_no_warmup (l : list float) :
  Forall (fun v => isnan v = false) l ->
  forall i v, nth_error l i = Some v -> (isnan v = true <-> (i < 0)%nat).
Proof.
  intros H i v Hv. rewrite Forall_forall in H.
  rewrite (H v (nth_error_In _ _ Hv)). split; intros; [discriminate | lia].
Qed.

(** C10, as the code has it: on a series of numbers the MACD oscillator is
    defined at every index, the rows dropped are exactly the 13 warm-up rows
    of the RSI, and an N-row series yields a table of N - 13 rows (none when
    N is below 13). *)
Theorem feature_table_drops_rsi_warmup (rsi_raises macd_raises : list float -> option string)
    (data : list quote) :
  Forall quote_defined data ->
  rsi_raises (map q_close data) = None ->
  macd_raises (map q_close data) = None ->
  Forall (fun v => isnan v = false) (macd_formula 12 26 9 (map q_close data)) /\
  add_indicators rsi_raises macd_raises data =
    ([], inr (skipn 13 (all_rows data (rsi_formula 14 (map q_close data))
                                      (macd_formula 12 26 9 (map q_close data))))) /\
  length (skipn 13 (all_rows data (rsi_formula 14 (map q_close data))
                                  (macd_formula 12 26 9 (map q_close data))))
    = (length data - 13)%nat.
Proof.
  intros Hdata Hr Hm.
  destruct (closes_defined Hdata) as [qs Hqs].
  assert (Hmacd : Forall (fun v => isnan v = false) (macd_formula 12 26 9 (map q_close data))).
  { rewrite Hqs. apply macd_formula_defined. }
  split; [exact Hmacd|].
  assert (Hl1 : length (rsi_formula 14 (map q_close data)) = length data).
  { now rewrite rsi_formula_length, length_map. }
  assert (Hl2 : length (macd_formula 12 26 9 (map q_close data)) = length data).
  { now rewrite macd_formula_length, length_map. }
  destruct (@assemble_drops_warmup data _ _ 13 0 Hdata Hl1 Hl2) as [Ha Hlen].
  { intros i v Hv. apply (@rsi_formula_defined_iff 14 (map q_close data) i v); [lia | exact Hv]. }
  { now apply defined_iff_no_warmup. }
  split; [|exact Hlen].
  assert (H1 : calculate_rsi rsi_raises (map q_close data) 14
               = ([], inr (rsi_formula 14 (map q_close data)))).
  { unfold calculate_rsi. now rewrite Hr. }
  assert (H2 : calculate_macd macd_raises (map q_close data) 12 26 9
               = ([], inr (macd_formula 12 26 9 (map q_close data)))).
  { unfold calculate_macd. now rewrite Hm. }
  destruct (@add_indicators_assembles _ _ _ _ _ _ _ H1 H2 Hl1 Hl2) as [Hadd Hasm].
  rewrite Hadd. cbn [app]. do 2 f_equal.
  rewrite Hasm in Ha. now injection Ha.
Qed.

Lemma feature_table_drops_rsi_warmup_witness :
  Forall (fun v => isnan v = false)
         (macd_formula 12 26 9 (map q_close (quotes_of (rising 14)))) /\
  add_indicators no_fault no_fault (quotes_of (rising 14)) =
    ([], inr (skipn 13 (all_rows (quotes_of (rising 14))
                          (rsi_formula 14 (map q_close (quotes_of (rising 14))))
                          (macd_formula 12 26 9 (map q_close (quotes_of (rising 14))))))) /\
  length (skipn 13 (all_rows (quotes_of (rising 14))
                      (rsi_formula 14 (map q_close (quotes_of (rising 14))))
                      (macd_formula 12 26 9 (map q_close (quotes_of (rising 14))))))
    = (length (quotes_of (rising 14)) - 13)%nat.
Proof.
  apply (@feature_table_drops_rsi_warmup no_fault no_fault (quotes_of (rising 14))).
  - repeat constructor.
  - reflexivity.
  - reflexivity.
Defined.

(** C10 fails as stated: a 14-row series leaves one row, not max(0, 14 - 14). *)
Lemma fourteen_rows_leave_one_row :
  exists table,
    returned (add_indicators no_fault no_fault (quotes_of (rising 14))) = Some table /\
    length table = 1%nat /\
    length table <> Nat.max 0 (14 - 14).
Proof.
  eexists. split; [vm_compute; reflexivity|].
  split; [reflexivity | discriminate].
Qed.

(** ** The callback *)

Lemma dropna_all {R} (row_cells : R -> list float) df :
  Forall (fun r => no_nan (row_cells r) = true) df -> dropna row_cells df = df.
Proof.
  unfold dropna. induction 1 as [|r df Hr _ IH]; cbn; [reflexivity|].
  now rewrite Hr, IH.
Qed.

Lemma finish_prepend t (m : run outcome) :
  finish (prepend t m) = ((t ++ fst (finish m))%list, snd (finish m)).
Proof. destruct m as [t' [o|o]]; reflexivity. Qed.

Section Callback.

Variables str_upper str_strip : string -> string.
Variable format_1f : float -> string.
Variable yf_download : string -> string + list bar.
Variables rsi_raises macd_raises : list float -> option string.
Variable load_model : string -> load_exn + predictor.
Variable joblib_load : string -> load_exn + scaler.

Local Abbreviation callback :=
  (predict_stock_trend str_upper str_strip format_1f yf_download
     rsi_raises macd_raises load_model joblib_load).
Local Abbreviation forecast_ := (forecast format_1f load_model joblib_load).

Lemma forecast_short ticker data :
  (length data < LOOKBACK_DAYS)%nat ->
  forecast_ ticker data =
    ([ShowWarning "Insufficient Data" "Not enough data for prediction.";
      ResultLabel "Insufficient data." "red";
      ButtonState true], inl InsufficientData).
Proof.
  intros H. unfold forecast_, forecast.
  destruct (Nat.ltb_spec (length data) LOOKBACK_DAYS); [reflexivity | lia].
Qed.

(** With a ticker and a frame that keeps a row after cleaning, the callback
    reaches the indicator stage and goes on with the table it yields. *)
Lemma callback_reaches_forecast entry_text frame q rest t table :
  str_strip (str_upper entry_text) <> "" ->
  yf_download (str_strip (str_upper entry_text)) = inr frame ->
  map (fun b => mkQuote (bar_close b) (bar_volume b)) (dropna bar_cells frame)
    = q :: rest ->
  add_indicators rsi_raises macd_raises (q :: rest) = (t, inr table) ->
  callback entry_text =
    finish (prepend ([ButtonState false; ResultLabel "Processing..." "blue";
                      RootUpdate;
                      YfDownload (str_strip (str_upper entry_text)) "3mo"] ++ t)%list
                    (forecast_ (str_strip (str_upper entry_text)) table)).
Proof.
  intros Hticker Hfetch Hdata Hind.
  unfold callback, predict_stock_trend, get_stock_data.
  apply String.eqb_neq in Hticker. rewrite Hticker, Hfetch.
  assert (Hne : is_empty frame = false).
  { destruct frame; [discriminate Hdata | reflexivity]. }
  rewrite Hne, Hdata.
  unfold emit, ret. cbn [bind prepend fst snd app]. rewrite Hind.
  cbn [bind prepend fst snd app]. unfold forecast_.
  destruct (forecast format_1f load_model joblib_load
              (str_strip (str_upper entry_text)) table) as [t' r].
  unfold prepend. cbn [fst snd app]. reflexivity.
Qed.

(** C5: a 10-row price series ends in the insufficient-data path, and no
    call to the model, the scaler or their loaders is made on that run. *)
Theorem ten_rows_insufficient_before_collaborators (entry_text : string)
    (frame : list bar) :
  str_strip (str_upper entry_text) <> "" ->
  yf_download (str_strip (str_upper entry_text)) = inr frame ->
  length frame = 10%nat ->
  Forall (fun b => no_nan (bar_cells b) = true) frame ->
  exists t,
    callback entry_text = (t, InsufficientData) /\
    (forall e, In e t -> is_collaborator_call e = false).
Proof.
  intros Hticker Hfetch Hlen Hclean.
  pose proof (dropna_all bar_cells Hclean) as Hdrop.
  destruct frame as [|b frame']; [discriminate Hlen|].
  set (data := map (fun b => mkQuote (bar_close b) (bar_volume b)) (b :: frame')).
  destruct (add_indicators_returns rsi_raises macd_raises data)
    as [t1 [rsi [t2 [macd [_ [_ [Hl1 [Hl2 [Hadd Hquiet]]]]]]]]].
  assert (Hshort : (length (dropna cells (all_rows data rsi macd)) < LOOKBACK_DAYS)%nat).
  { pose proof (dropna_length_le cells (all_rows data rsi macd)) as Hle.
    rewrite all_rows_length in Hle by assumption.
    assert (Hdata : length data = 10%nat) by (unfold data; now rewrite length_map).
    unfold LOOKBACK_DAYS. lia. }
  eexists. split.
  - rewrite (@callback_reaches_forecast entry_text (b :: frame')
               (mkQuote (bar_close b) (bar_volume b))
               (map (fun b => mkQuote (bar_close b) (bar_volume b)) frame')
               (t1 ++ t2)%list (dropna cells (all_rows data rsi macd)));
      [| assumption | assumption | now rewrite Hdrop | exact Hadd].
    rewrite finish_prepend, forecast_short by exact Hshort.
    cbn [finish fst snd]. reflexivity.
  - intros e He. rewrite !in_app_iff in He. cbn in He.
    destruct He as [[He|He]|He].
    + intuition (subst; reflexivity).
    + apply Hquiet. rewrite in_app_iff. destruct He as [He|He]; [left; exact He|].
      right. exact He.
    + intuition (subst; reflexivity).
Qed.

End Callback.

Lemma ten_rows_insufficient_before_collaborators_witness :
  exists t,
    predict_stock_trend as_typed as_typed sample_format (sample_download 10)
      no_fault no_fault sample_load_model sample_load_scaler "AAPL"
      = (t, InsufficientData) /\
    (forall e, In e t -> is_collaborator_call e = false).
Proof.
  apply (@ten_rows_insufficient_before_collaborators as_typed as_typed sample_format
           (sample_download 10) no_fault no_fault sample_load_model sample_load_scaler
           "AAPL" (bars_of (rising 10))).
  - discriminate.
  - reflexivity.
  - reflexivity.
  - repeat constructor.
Defined.

(** ** Faults inside the indicators *)

Lemma zip_with_snd_forall {A B C} (P : B -> Prop) (Q' : C -> Prop) (f : A -> B -> C) l r :
  (forall a b, P b -> Q' (f a b)) ->
  Forall P r -> Forall Q' (zip_with f l r).
Proof.
  intros Hf Hr. revert l. induction Hr as [|b r Hb _ IH]; intros [|a l];
    unfold zip_with; cbn; constructor; auto. apply IH.
Qed.

Lemma zip_with_fst_forall {A B C} (P : A -> Prop) (Q' : C -> Prop) (f : A -> B -> C) l r :
  (forall a b, P a -> Q' (f a b)) ->
  Forall P l -> Forall Q' (zip_with f l r).
Proof.
  intros Hf Hl. revert r. induction Hl as [|a l Ha _ IH]; intros [|b r];
    unfold zip_with; cbn; constructor; auto. apply IH.
Qed.

Lemma dropna_forall {R} (P : R -> Prop) (row_cells : R -> list float) df :
  Forall P df -> Forall P (dropna row_cells df).
Proof.
  unfold dropna. intros H. apply Forall_forall. intros r Hr.
  apply filter_In in Hr as [Hr _]. rewrite Forall_forall in H. now apply H.
Qed.

Lemma np_zeros_forall n : Forall (fun v => v = num 0) (np_zeros n).
Proof. unfold np_zeros. induction n; cbn; constructor; auto. Qed.

(** C8: when the computation inside [calculate_rsi] or [calculate_macd]
    raises, the function shows the error, still returns a zero-filled series
    as long as its input, and the indicator stage of the callback goes on
    with that column instead of leaving the callback. *)
Theorem indicator_fault_yields_zeros (rsi_raises macd_raises : list float -> option string) :
  (forall data window e, rsi_raises data = Some e ->
     calculate_rsi rsi_raises data window =
       ([ShowError "RSI Calculation Error" ("Error calculating RSI: " ++ e)],
        inr (repeat (num 0) (length data)))) /\
  (forall data short_window long_window signal_window e, macd_raises data = Some e ->
     calculate_macd macd_raises data short_window long_window signal_window =
       ([ShowError "MACD Calculation Error" ("Error calculating MACD: " ++ e)],
        inr (repeat (num 0) (length data)))) /\
  (forall quotes e, rsi_raises (map q_close quotes) = Some e ->
     exists t table,
       add_indicators rsi_raises macd_raises quotes = (t, inr table) /\
       In (ShowError "RSI Calculation Error" ("Error calculating RSI: " ++ e)) t /\
       Forall (fun r => RSI r = num 0) table) /\
  (forall quotes e, macd_raises (map q_close quotes) = Some e ->
     exists t table,
       add_indicators rsi_raises macd_raises quotes = (t, inr table) /\
       In (ShowError "MACD Calculation Error" ("Error calculating MACD: " ++ e)) t /\
       Forall (fun r => MACD r = num 0) table).
Proof.
  split; [|split; [|split]].
  - intros data window e He. unfold calculate_rsi. now rewrite He.
  - intros data a b c e He. unfold calculate_macd. now rewrite He.
  - intros quotes e He.
    destruct (add_indicators_returns rsi_raises macd_raises quotes)
      as [t1 [rsi [t2 [macd [H1 [_ [_ [_ [Hadd _]]]]]]]]].
    unfold calculate_rsi in H1. rewrite He in H1. injection H1 as <- <-.
    do 2 eexists. split; [exact Hadd|]. split; [now left|].
    apply dropna_forall. unfold all_rows.
    apply (@zip_with_fst_forall _ _ _ (fun p : quote * float => snd p = num 0)
             (fun r => RSI r = num 0)).
    + intros [q v] m Hv. exact Hv.
    + apply (@zip_with_snd_forall _ _ _ (fun v => v = num 0)
               (fun p : quote * float => snd p = num 0)); [|apply np_zeros_forall].
      intros q v Hv. exact Hv.
  - intros quotes e He.
    destruct (add_indicators_returns rsi_raises macd_raises quotes)
      as [t1 [rsi [t2 [macd [_ [H2 [_ [_ [Hadd _]]]]]]]]].
    unfold calculate_macd in H2. rewrite He in H2. injection H2 as <- <-.
    do 2 eexists. split; [exact Hadd|]. split; [apply in_or_app; right; now left|].
    apply dropna_forall. unfold all_rows.
    apply (@zip_with_snd_forall _ _ _ (fun v => v = num 0)
             (fun r => MACD r = num 0)); [|apply np_zeros_forall].
    intros p v Hv. exact Hv.
Qed.

Lemma indicator_fault_yields_zeros_witness :
  always_fault (series_of (rising 20)) = Some "fault" /\
  calculate_rsi always_fault (series_of (rising 20)) 14 =
    ([ShowError "RSI Calculation Error" ("Error calculating RSI: " ++ "fault")],
     inr (repeat (num 0) (length (series_of (rising 20))))) /\
  calculate_macd always_fault (series_of (rising 20)) 12 26 9 =
    ([ShowError "MACD Calculation Error" ("Error calculating MACD: " ++ "fault")],
     inr (repeat (num 0) (length (series_of (rising 20))))) /\
  exists t table,
    add_indicators always_fault always_fault (quotes_of (rising 20)) = (t, inr table) /\
    In (ShowError "RSI Calculation Error" ("Error calculating RSI: " ++ "fault")) t /\
    Forall (fun r => RSI r = num 0) table.
Proof.
  destruct (indicator_fault_yields_zeros always_fault always_fault)
    as [Hrsi [Hmacd [Hstage _]]].
  split; [reflexivity|].
  split; [apply Hrsi; reflexivity|].
  split; [apply Hmacd; reflexivity|].
  apply Hstage. reflexivity.
Defined.

(** A run on which both indicators fault still reaches a prediction. *)
Example faulted_run_completes :
  exists t p,
    predict_stock_trend as_typed as_typed sample_format (sample_download 40)
      always_fault always_fault sample_load_model sample_load_scaler "AAPL"
      = (t, Done p) /\
    best_class p = 3%nat /\ percentage_move p = "+10%" /\ result_color p = "green" /\
    In ModelPredict t.
Proof.
  do 2 eexists. split; [vm_compute; reflexivity|].
  repeat split. vm_compute. tauto.
Qed.

(** ** The window *)

Lemma concat_length_uniform {A} n (rows : list (list A)) :
  Forall (fun r => length r = n) rows ->
  length (concat rows) = (length rows * n)%nat.
Proof.
  induction 1 as [|r rows Hr _ IH]; cbn; [reflexivity|].
  rewrite length_app, IH, Hr. reflexivity.
Qed.

Lemma chunks_concat {A} n (rows : list (list A)) :
  Forall (fun r => length r = n) rows ->
  chunks n (length rows) (concat rows) = rows.
Proof.
  induction 1 as [|r rows Hr _ IH]; [reflexivity|].
  cbn [length concat chunks].
  rewrite firstn_app, skipn_app, Hr, Nat.sub_diag.
  cbn [firstn skipn]. rewrite app_nil_r.
  rewrite (firstn_all2 r), (skipn_all2 r) by (rewrite Hr; apply Nat.le_refl).
  cbn [app]. now rewrite IH.
Qed.

Lemma reshape_full_window (m : matrix) :
  Forall (fun r => length r = 4%nat) m -> length m = 30%nat ->
  reshape3 1 30 4 m = inr [m].
Proof.
  intros Hrows Hlen. unfold reshape3.
  pose proof (concat_length_uniform Hrows) as Hflat. rewrite Hlen in Hflat.
  rewrite Hflat.
  change (30 * 4 =? 1 * 30 * 4)%nat with true. cbv iota.
  change (chunks (30 * 4) 1 (concat m)) with [firstn (30 * 4) (concat m)].
  cbn [map]. rewrite firstn_all2 by (rewrite Hflat; apply Nat.le_refl).
  do 2 f_equal. rewrite <- Hlen. now apply chunks_concat.
Qed.

Lemma reshape_short_window (m : matrix) :
  Forall (fun r => length r = 4%nat) m -> length m <> 30%nat ->
  reshape3 1 30 4 m = inl "cannot reshape array".
Proof.
  intros Hrows Hlen. unfold reshape3.
  rewrite (concat_length_uniform Hrows).
  destruct (Nat.eqb_spec (length m * 4) (1 * 30 * 4)); [lia | reflexivity].
Qed.

Lemma last_rows_length {A} n (a : list A) :
  length (last_rows n a) = Nat.min n (length a).
Proof. unfold last_rows. rewrite length_skipn. lia. Qed.

(** C2, as the code has it: the only row-count check is the one made after
    the assembly, on the table before it is scaled; the window step has none
    of its own.  On a scaled table of four columns with at least 30 rows the
    window has shape (1, 30, 4) and holds exactly the last 30 rows in their
    order; with fewer rows the reshape fails and the failure is shown as a
    prediction error, the model not being called. *)
Theorem window_is_last_thirty_rows (scaled_data : matrix) :
  Forall (fun r => length r = 4%nat) scaled_data ->
  ((30 <= length scaled_data)%nat ->
     extract_window scaled_data = inr [skipn (length scaled_data - 30) scaled_data] /\
     length (skipn (length scaled_data - 30) scaled_data) = 30%nat) /\
  ((length scaled_data < 30)%nat ->
     extract_window scaled_data = inl "cannot reshape array" /\
     forall (model : predictor) (sc : scaler) (data : list features),
       sc (map cells data) = inr scaled_data ->
       predict model sc data =
         ([ScalerTransform;
           ShowError "Prediction Error" ("Error during prediction: " ++ "cannot reshape array");
           ButtonState true], inl PredictionError)) /\
  (forall format_1f load_model joblib_load ticker (data : list features),
     (length data < 30)%nat ->
     exists t,
       forecast format_1f load_model joblib_load ticker data = (t, inl InsufficientData) /\
       (forall e, In e t -> is_collaborator_call e = false)).
Proof.
  intros Hrows. split; [|split].
  - intros Hlen. unfold extract_window, LOOKBACK_DAYS.
    assert (Hl : length (last_rows 30 scaled_data) = 30%nat).
    { rewrite last_rows_length. lia. }
    split; [|exact Hl].
    apply reshape_full_window; [|exact Hl].
    unfold last_rows. now apply Forall_skipn_keep.
  - intros Hlen.
    assert (Hw : extract_window scaled_data = inl "cannot reshape array").
    { unfold extract_window, LOOKBACK_DAYS. apply reshape_short_window.
      - unfold last_rows. now apply Forall_skipn_keep.
      - rewrite last_rows_length. lia. }
    split; [exact Hw|].
    intros model sc data Hsc. unfold predict. rewrite Hsc, Hw. reflexivity.
  - intros format_1f load_model joblib_load ticker data Hlen.
    eexists. split; [now apply forecast_short|].
    intros e He. cbn in He. intuition (subst; reflexivity).
Qed.

Lemma window_is_last_thirty_rows_witness :
  extract_window (repeat (series_of [1; 2; 3; 4]%Z) 31)
    = inr [skipn (length (repeat (series_of [1; 2; 3; 4]%Z) 31) - 30)
                 (repeat (series_of [1; 2; 3; 4]%Z) 31)] /\
  length (skipn (length (repeat (series_of [1; 2; 3; 4]%Z) 31) - 30)
                (repeat (series_of [1; 2; 3; 4]%Z) 31)) = 30%nat.
Proof.
  apply (proj1 (@window_is_last_thirty_rows (repeat (series_of [1; 2; 3; 4]%Z) 31)
                  ltac:(repeat constructor))).
  rewrite repeat_length. lia.
Defined.

(** C2 fails as stated: when the scaled table comes back with 10 rows the
    callback ends in the prediction-error path, not in the insufficient-data
    path: the window step does not check the row count again. *)
Lemma short_scaled_table_is_prediction_error :
  exists t,
    predict_stock_trend as_typed as_typed sample_format (flat_download 60)
      no_fault no_fault sample_load_model truncating_load_scaler "AAPL"
      = (t, PredictionError) /\
    PredictionError <> InsufficientData /\
    extract_window (firstn 10 (repeat (series_of [1; 2; 3; 4]%Z) 40))
      = inl "cannot reshape array".
Proof.
  eexists. split; [vm_compute; reflexivity|].
  split; [discriminate | reflexivity].
Qed.

(** ** The decision *)

Lemma argmax_scan_bound mp max_ind i (l : list float) :
  (max_ind < i)%nat -> (argmax_scan mp max_ind i l < i + length l)%nat.
Proof.
  revert mp max_ind i. induction l as [|[x|] l IH]; intros mp max_ind i H; cbn.
  - lia.
  - destruct (Qle_bool x mp).
    + specialize (IH mp max_ind (S i)). lia.
    + specialize (IH x i (S i)). lia.
  - lia.
Qed.

Lemma np_argmax_bound (v : list float) :
  v <> [] -> exists best, np_argmax v = Some best /\ (best < length v)%nat.
Proof.
  destruct v as [|[x|] rest]; [congruence| |]; intros _; cbn.
  - eexists. split; [reflexivity|].
    pose proof (@argmax_scan_bound x 0%nat 1%nat rest). lia.
  - exists 0%nat. split; [reflexivity | lia].
Qed.

(** The scan keeps the running maximum, or moves to the first later entry
    that exceeds everything before it and is not exceeded after it. *)
Lemma argmax_scan_first_max rest : forall mp max_ind i,
  (argmax_scan mp max_ind i (map Some rest) = max_ind /\
   Forall (fun x => x <= mp) rest) \/
  (exists k m,
     argmax_scan mp max_ind i (map Some rest) = (i + k)%nat /\
     nth_error rest k = Some m /\ mp < m /\
     Forall (fun x => x <= m) rest /\
     (forall j x, (j < k)%nat -> nth_error rest j = Some x -> x < m)).
Proof.
  induction rest as [|x rest IH]; intros mp max_ind i; cbn [map argmax_scan].
  - left. split; [reflexivity | constructor].
  - destruct (Qle_bool x mp) eqn:E.
    + apply Qle_bool_iff in E.
      destruct (IH mp max_ind (S i)) as [[Hr Hall]|[k [m [Hr [Hk [Hm [Hall Hfirst]]]]]]].
      * left. split; [exact Hr | now constructor].
      * right. exists (S k), m. repeat split.
        -- rewrite Hr. lia.
        -- exact Hk.
        -- exact Hm.
        -- constructor; [lra | exact Hall].
        -- intros [|j] y Hj Hy; cbn in Hy.
           ++ injection Hy as <-. lra.
           ++ apply (Hfirst j y); [lia | exact Hy].
    + assert (Hx : mp < x).
      { apply Qnot_le_lt. intros Hle. apply Qle_bool_iff in Hle. congruence. }
      destruct (IH x i (S i)) as [[Hr Hall]|[k [m [Hr [Hk [Hm [Hall Hfirst]]]]]]].
      * right. exists 0%nat, x. repeat split.
        -- rewrite Hr. lia.
        -- exact Hx.
        -- constructor; [apply Qle_refl | exact Hall].
        -- intros j y Hj. lia.
      * right. exists (S k), m. repeat split.
        -- rewrite Hr. lia.
        -- exact Hk.
        -- lra.
        -- constructor; [lra | exact Hall].
        -- intros [|j] y Hj Hy; cbn in Hy.
           ++ injection Hy as <-. exact Hm.
           ++ apply (Hfirst j y); [lia | exact Hy].
Qed.

Lemma np_argmax_first_max q0 rest :
  exists best m,
    np_argmax (map Some (q0 :: rest)) = Some best /\
    nth_error (q0 :: rest) best = Some m /\
    Forall (fun x => x <= m) (q0 :: rest) /\
    (forall j x, (j < best)%nat -> nth_error (q0 :: rest) j = Some x -> x < m).
Proof.
  cbn [map np_argmax].
  destruct (argmax_scan_first_max rest q0 0%nat 1%nat)
    as [[Hr Hall]|[k [m [Hr [Hk [Hm [Hall Hfirst]]]]]]].
  - exists 0%nat, q0. repeat split.
    + now rewrite Hr.
    + constructor; [apply Qle_refl | exact Hall].
    + intros j x Hj. lia.
  - exists (S k), m. repeat split.
    + now rewrite Hr.
    + exact Hk.
    + constructor; [lra | exact Hall].
    + intros [|j] y Hj Hy; cbn in Hy.
      * injection Hy as <-. exact Hm.
      * apply (Hfirst j y); [lia | exact Hy].
Qed.

Lemma label_in_table best :
  (best <= 10)%nat ->
  nth_error Spec.labels best = Some (dict_get PERCENTAGE_MOVES best "Unknown").
Proof.
  intros H. do 11 (destruct best as [|best]; [reflexivity|]). lia.
Qed.

Lemma label_outside_table best :
  (10 < best)%nat -> dict_get PERCENTAGE_MOVES best "Unknown" = "Unknown".
Proof.
  intros H. do 11 (destruct best as [|best]; [lia|]). reflexivity.
Qed.

Lemma decide_unfold format_1f ticker prediction best :
  np_argmax prediction = Some best ->
  decide format_1f ticker prediction =
    Some (mkPrediction best
            (fmul (nth best prediction NaN) (num 100))
            (dict_get PERCENTAGE_MOVES best "Unknown")
            (if (best =? 0)%nat then ticker ++ ": 🔍 Neutral trend."
             else ticker ++ " is likely to go "
                    ++ (if (best <=? 5)%nat then "up📈" else "down📉") ++ " "
                    ++ dict_get PERCENTAGE_MOVES best "Unknown"
                    ++ " (" ++ format_1f (fmul (nth best prediction NaN) (num 100))
                    ++ "% confidence).")
            (if (best =? 0)%nat then "black"
             else if (best <=? 5)%nat then "green" else "red")).
Proof.
  intros H. unfold decide. rewrite H. destruct (best =? 0)%nat; reflexivity.
Qed.

(** C1: on a vector of eleven probabilities the decision takes the first
    index of the maximum as class, the probability there times 100 as
    confidence, the label of that class in the fixed table, and the direction
    neutral for class 0, up for classes 1 to 5 and down for classes 6 to 10. *)
Theorem decision_for_eleven_classes (format_1f : float -> string) (ticker : string)
    (probabilities : list Q) :
  length probabilities = 11%nat ->
  exists p m d,
    decide format_1f ticker (map Some probabilities) = Some p /\
    (best_class p <= 10)%nat /\
    nth_error probabilities (best_class p) = Some m /\
    Forall (fun x => x <= m) probabilities /\
    (forall j x, (j < best_class p)%nat -> nth_error probabilities j = Some x -> x < m) /\
    confidence p = Some (m * 100) /\
    nth_error Spec.labels (best_class p) = Some (percentage_move p) /\
    Spec.direction_of (best_class p) = Some d /\
    result_color p = Spec.color_of d /\
    result_text p =
      match d with
      | Neutral => ticker ++ ": 🔍 Neutral trend."
      | Up => ticker ++ " is likely to go up📈 " ++ percentage_move p
                ++ " (" ++ format_1f (confidence p) ++ "% confidence)."
      | Down => ticker ++ " is likely to go down📉 " ++ percentage_move p
                  ++ " (" ++ format_1f (confidence p) ++ "% confidence)."
      end.
Proof.
  intros Hlen. destruct probabilities as [|q0 rest]; [discriminate Hlen|].
  destruct (np_argmax_first_max q0 rest) as [best [m [Hbest [Hm [Hall Hfirst]]]]].
  assert (Hb : (best <= 10)%nat).
  { pose proof (@nth_error_in_range _ _ _ _ Hm) as Hi. rewrite Hlen in Hi. lia. }
  assert (Hnth : @nth float best (map Some (q0 :: rest)) NaN = Some m).
  { apply nth_error_nth. now apply map_nth_error. }
  rewrite (decide_unfold format_1f ticker _ Hbest), Hnth.
  assert (Hd : exists d, Spec.direction_of best = Some d /\
                (if (best =? 0)%nat then "black"
                 else if (best <=? 5)%nat then "green" else "red") = Spec.color_of d /\
                (if (best =? 0)%nat then ticker ++ ": 🔍 Neutral trend."
                 else ticker ++ " is likely to go "
                        ++ (if (best <=? 5)%nat then "up📈" else "down📉") ++ " "
                        ++ dict_get PERCENTAGE_MOVES best "Unknown"
                        ++ " (" ++ format_1f (fmul (Some m) (num 100))
                        ++ "% confidence).") =
                match d with
                | Neutral => ticker ++ ": 🔍 Neutral trend."
                | Up => ticker ++ " is likely to go up📈 "
                          ++ dict_get PERCENTAGE_MOVES best "Unknown"
                          ++ " (" ++ format_1f (fmul (Some m) (num 100))
                          ++ "% confidence)."
                | Down => ticker ++ " is likely to go down📉 "
                            ++ dict_get PERCENTAGE_MOVES best "Unknown"
                            ++ " (" ++ format_1f (fmul (Some m) (num 100))
                            ++ "% confidence)."
                end).
  { clear - Hb.
    do 11 (destruct best as [|best];
           [eexists; split; [reflexivity|]; split; reflexivity|]).
    lia. }
  destruct Hd as [d [Hdir [Hcolor Htext]]].
  exists (mkPrediction best (fmul (Some m) (num 100))
            (dict_get PERCENTAGE_MOVES best "Unknown")
            (if (best =? 0)%nat then ticker ++ ": 🔍 Neutral trend."
             else ticker ++ " is likely to go "
                    ++ (if (best <=? 5)%nat then "up📈" else "down📉") ++ " "
                    ++ dict_get PERCENTAGE_MOVES best "Unknown"
                    ++ " (" ++ format_1f (fmul (Some m) (num 100))
                    ++ "% confidence).")
            (if (best =? 0)%nat then "black"
             else if (best <=? 5)%nat then "green" else "red")), m, d.
  cbn [best_class confidence percentage_move result_text result_color].
  split; [reflexivity|]. split; [exact Hb|]. split; [exact Hm|].
  split; [exact Hall|]. split; [exact Hfirst|]. split; [reflexivity|].
  split; [now apply label_in_table|]. split; [exact Hdir|].
  split; [exact Hcolor | exact Htext].
Qed.

Lemma decision_for_eleven_classes_witness :
  length sample_weights = 11%nat /\
  exists p m d,
    decide sample_format "AAPL" (map Some sample_weights) = Some p /\
    (best_class p <= 10)%nat /\
    nth_error sample_weights (best_class p) = Some m /\
    Forall (fun x => x <= m) sample_weights /\
    (forall j x, (j < best_class p)%nat -> nth_error sample_weights j = Some x -> x < m) /\
    confidence p = Some (m * 100) /\
    nth_error Spec.labels (best_class p) = Some (percentage_move p) /\
    Spec.direction_of (best_class p) = Some d /\
    result_color p = Spec.color_of d /\
    result_text p =
      match d with
      | Neutral => "AAPL" ++ ": 🔍 Neutral trend."
      | Up => "AAPL" ++ " is likely to go up📈 " ++ percentage_move p
                ++ " (" ++ sample_format (confidence p) ++ "% confidence)."
      | Down => "AAPL" ++ " is likely to go down📉 " ++ percentage_move p
                  ++ " (" ++ sample_format (confidence p) ++ "% confidence)."
      end.
Proof.
  split; [reflexivity|].
  apply (@decision_for_eleven_classes sample_format "AAPL" sample_weights).
  reflexivity.
Defined.

(** C9, as the code has it: the decision never looks at the length of the
    vector.  Only an empty vector raises (inside [np.argmax]); every other
    vector yields a prediction, with the label of the table for a class up to
    10 and the label Unknown, shown as a fall, for a class beyond it. *)
Theorem decide_has_no_length_check (format_1f : float -> string) (ticker : string) :
  decide format_1f ticker [] = None /\
  (forall prediction : list float, prediction <> [] ->
     exists p,
       decide format_1f ticker prediction = Some p /\
       (best_class p < length prediction)%nat /\
       ((best_class p <= 10)%nat ->
          nth_error Spec.labels (best_class p) = Some (percentage_move p)) /\
       ((10 < best_class p)%nat ->
          percentage_move p = "Unknown" /\ result_color p = "red")).
Proof.
  split; [reflexivity|].
  intros prediction Hne.
  destruct (np_argmax_bound Hne) as [best [Hbest Hlt]].
  rewrite (decide_unfold format_1f ticker _ Hbest).
  eexists. split; [reflexivity|].
  cbn [best_class percentage_move result_color].
  split; [exact Hlt|]. split.
  - apply label_in_table.
  - intros H. split; [now apply label_outside_table|].
    destruct (Nat.eqb_spec best 0); [lia|].
    destruct (Nat.leb_spec best 5); [lia | reflexivity].
Qed.

Lemma decide_has_no_length_check_witness :
  series_of [1; 5; 2]%Z <> [] /\
  exists p,
    decide sample_format "AAPL" (series_of [1; 5; 2]%Z) = Some p /\
    (best_class p < length (series_of [1; 5; 2]%Z))%nat /\
    ((best_class p <= 10)%nat ->
       nth_error Spec.labels (best_class p) = Some (percentage_move p)) /\
    ((10 < best_class p)%nat ->
       percentage_move p = "Unknown" /\ result_color p = "red").
Proof.
  split; [discriminate|].
  apply (proj2 (decide_has_no_length_check sample_format "AAPL")). discriminate.
Defined.

(** C9 fails as stated: vectors of three and of twelve entries are decided
    like any other, the second one with the label Unknown. *)
Lemma wrong_length_vector_is_decided :
  length (series_of [1; 5; 2]%Z) <> 11%nat /\
  (exists p, decide sample_format "AAPL" (series_of [1; 5; 2]%Z) = Some p /\
             best_class p = 1%nat /\ percentage_move p = "+3%") /\
  length (series_of [0; 0; 0; 0; 0; 0; 0; 0; 0; 0; 0; 9]%Z) <> 11%nat /\
  (exists p, decide sample_format "AAPL"
               (series_of [0; 0; 0; 0; 0; 0; 0; 0; 0; 0; 0; 9]%Z) = Some p /\
             best_class p = 11%nat /\ percentage_move p = "Unknown" /\
             result_color p = "red").
Proof.
  split; [discriminate|]. split.
  - eexists. split; [vm_compute; reflexivity|]. split; reflexivity.
  - split; [discriminate|].
    eexists. split; [vm_compute; reflexivity|]. repeat split.
Qed.

(** * Further properties of the code *)

(** ** Reshaping *)

Lemma firstn_plus {A} a b (l : list A) :
  firstn (a + b) l = (firstn a l ++ firstn b (skipn a l))%list.
Proof.
  revert l; induction a as [|a IH]; intros l; [reflexivity|].
  destruct l as [|x l]; cbn.
  - now rewrite firstn_nil.
  - now rewrite IH.
Qed.

Lemma chunks_length {A} size count (l : list A) :
  length (chunks size count l) = count.
Proof.
  revert l; induction count as [|k IH]; intros l; cbn; [reflexivity|].
  now rewrite IH.
Qed.

Lemma chunks_flatten {A} size count (l : list A) :
  concat (chunks size count l) = firstn (count * size) l.
Proof.
  revert l; induction count as [|k IH]; intros l; cbn [chunks concat Nat.mul].
  - reflexivity.
  - now rewrite IH, firstn_plus.
Qed.

Lemma chunks_sizes {A} size count (l : list A) :
  (count * size <= length l)%nat ->
  Forall (fun c => length c = size) (chunks size count l).
Proof.
  revert l; induction count as [|k IH]; intros l H; cbn [chunks]; constructor.
  - rewrite length_firstn. cbn in H. lia.
  - apply IH. rewrite length_skipn. cbn in H. lia.
Qed.

Lemma concat_map_id {A} (f : list A -> list (list A)) (ls : list (list A)) :
  Forall (fun p => concat (f p) = p) ls -> concat (concat (map f ls)) = concat ls.
Proof.
  induction 1 as [|p ls Hp _ IH]; cbn; [reflexivity|].
  now rewrite concat_app, Hp, IH.
Qed.

(** X1: [reshape] succeeds exactly when the element count agrees, and then
    the result has the requested shape and holds the same elements in the
    same row-major order. *)
Theorem reshape3_shape_and_order (d0 d1 d2 : nat) (a : matrix) :
  (forall t, reshape3 d0 d1 d2 a = inr t ->
     length (concat a) = (d0 * d1 * d2)%nat /\
     length t = d0 /\
     Forall (fun plane => length plane = d1 /\
                          Forall (fun row => length row = d2) plane) t /\
     concat (concat t) = concat a) /\
  (length (concat a) = (d0 * d1 * d2)%nat -> exists t, reshape3 d0 d1 d2 a = inr t) /\
  (length (concat a) <> (d0 * d1 * d2)%nat ->
     reshape3 d0 d1 d2 a = inl "cannot reshape array").
Proof.
  unfold reshape3. split; [|split].
  - intros t Ht.
    destruct (Nat.eqb_spec (length (concat a)) (d0 * d1 * d2)) as [Hlen|]; [|discriminate].
    injection Ht as <-. split; [exact Hlen|].
    assert (Hplanes : Forall (fun p => length p = (d1 * d2)%nat)
                        (chunks (d1 * d2) d0 (concat a))).
    { apply chunks_sizes. rewrite Hlen, Nat.mul_assoc. apply Nat.le_refl. }
    split; [now rewrite length_map, chunks_length|]. split.
    + apply Forall_map. eapply Forall_impl; [|exact Hplanes].
      intros p Hp. cbn beta. split; [apply chunks_length|].
      apply chunks_sizes. rewrite Hp. apply Nat.le_refl.
    + rewrite concat_map_id.
      * rewrite chunks_flatten. apply firstn_all2.
        rewrite Hlen, Nat.mul_assoc. apply Nat.le_refl.
      * eapply Forall_impl; [|exact Hplanes].
        intros p Hp. cbn beta. rewrite chunks_flatten. apply firstn_all2.
        rewrite Hp. apply Nat.le_refl.
  - intros Hlen. rewrite Hlen, Nat.eqb_refl. eexists. reflexivity.
  - intros Hlen.
    destruct (Nat.eqb_spec (length (concat a)) (d0 * d1 * d2)); [contradiction | reflexivity].
Qed.

Lemma reshape3_shape_and_order_witness :
  exists t,
    reshape3 1 2 3 [series_of [1; 2]%Z; series_of [3; 4]%Z; series_of [5; 6]%Z] = inr t /\
    length t = 1%nat /\
    Forall (fun plane => length plane = 2%nat /\
                         Forall (fun row => length row = 3%nat) plane) t /\
    concat (concat t)
      = concat [series_of [1; 2]%Z; series_of [3; 4]%Z; series_of [5; 6]%Z].
Proof.
  destruct (reshape3_shape_and_order 1 2 3
              [series_of [1; 2]%Z; series_of [3; 4]%Z; series_of [5; 6]%Z])
    as [Hshape [Hex _]].
  destruct (Hex eq_refl) as [t Ht].
  exists t. split; [exact Ht|].
  destruct (Hshape t Ht) as [_ [H1 [H2 H3]]]. auto.
Defined.

(** X2: the window step looks at the number of cells only: it succeeds
    exactly when the last 30 rows (or all rows when there are fewer) hold 120
    cells, whatever the number of columns, and the window then lists those
    cells in their order, as one sample of 30 steps of 4 features. *)
Theorem extract_window_counts_cells (scaled_data : matrix) :
  ((exists X_input, extract_window scaled_data = inr X_input) <->
     length (concat (last_rows 30 scaled_data)) = 120%nat) /\
  (forall X_input, extract_window scaled_data = inr X_input ->
     exists sample,
       X_input = [sample] /\ length sample = 30%nat /\
       Forall (fun row => length row = 4%nat) sample /\
       concat sample = concat (last_rows 30 scaled_data)).
Proof.
  unfold extract_window, LOOKBACK_DAYS.
  destruct (reshape3_shape_and_order 1 30 4 (last_rows 30 scaled_data))
    as [Hshape [Hex Hfail]].
  split.
  - split.
    + intros [X HX]. now destruct (Hshape X HX) as [Hlen _].
    + intros Hlen. apply Hex. exact Hlen.
  - intros X HX. destruct (Hshape X HX) as [_ [H1 [H2 H3]]].
    destruct X as [|sample [|]]; try discriminate H1.
    exists sample. split; [reflexivity|].
    inversion H2 as [|? ? [Hs Hrows] _]; subst.
    split; [exact Hs|]. split; [exact Hrows|].
    cbn in H3. now rewrite app_nil_r in H3.
Qed.

(** A table of 15 rows of 8 columns goes through the window step. *)
Lemma extract_window_counts_cells_witness :
  length (concat (last_rows 30 (repeat (series_of [1; 2; 3; 4; 5; 6; 7; 8]%Z) 15)))
    = 120%nat /\
  exists X_input,
    extract_window (repeat (series_of [1; 2; 3; 4; 5; 6; 7; 8]%Z) 15) = inr X_input.
Proof.
  split; [reflexivity|].
  apply (proj1 (extract_window_counts_cells
                  (repeat (series_of [1; 2; 3; 4; 5; 6; 7; 8]%Z) 15))).
  reflexivity.
Defined.

(** ** NaN in the model's answer *)

Lemma argmax_scan_stops_at_nan qs rest : forall mp max_ind i,
  argmax_scan mp max_ind i (map Some qs ++ NaN :: rest) = (i + length qs)%nat.
Proof.
  induction qs as [|q qs IH]; intros mp max_ind i; cbn.
  - lia.
  - destruct (Qle_bool q mp); rewrite IH; lia.
Qed.

(** X3: when the model's answer holds a NaN, the class chosen is the index
    of the first NaN, whatever the other probabilities are, and the
    confidence is NaN. *)
Theorem first_nan_is_the_class (format_1f : float -> string) (ticker : string)
    (before : list Q) (after : list float) :
  exists p,
    decide format_1f ticker (map Some before ++ NaN :: after) = Some p /\
    best_class p = length before /\
    confidence p = NaN.
Proof.
  assert (Hbest : np_argmax (map Some before ++ NaN :: after) = Some (length before)).
  { destruct before as [|q qs]; cbn; [reflexivity|].
    now rewrite argmax_scan_stops_at_nan. }
  rewrite (decide_unfold format_1f ticker _ Hbest).
  eexists. split; [reflexivity|]. cbn [best_class confidence].
  split; [reflexivity|].
  unfold fmul, lift2.
  match goal with
  | |- match ?x with _ => _ end = _ => assert (Hn : x = NaN)
  end.
  { rewrite app_nth2; rewrite length_map; [|lia]. now rewrite Nat.sub_diag. }
  now rewrite Hn.
Qed.

(** ** RSI: closed form and monotone series *)

Lemma daily_gains_length data : length (daily_gains data) = length data.
Proof.
  unfold daily_gains. rewrite where_length; rewrite ?length_map; auto using diff_length.
Qed.

Lemma daily_losses_length data : length (daily_losses data) = length data.
Proof.
  unfold daily_losses. rewrite where_length; rewrite ?length_map; auto using diff_length.
Qed.

Lemma rsi_gain_value w data i :
  (i < length data)%nat -> (0 < w)%nat -> (w <= S i)%nat ->
  nth_error (rsi_gain w data) i =
    Some (Some (fsum (window_at w i (daily_gains data)) / inject_Z (Z.of_nat w))).
Proof.
  intros Hi Hpos Hw. unfold rsi_gain. fold (daily_gains data).
  pose proof (gains_nonneg (diff data)) as Hg. fold (daily_gains data) in Hg.
  pose proof (daily_gains_length data) as Hs.
  assert (Hwin : Forall (fun x => exists q, x = Some q /\ 0 <= q)
                   (window_at w i (daily_gains data))).
  { unfold window_at. now apply Forall_skipn_keep, Forall_firstn_keep. }
  assert (Hlen : length (window_at w i (daily_gains data)) = w).
  { rewrite window_at_length; lia. }
  rewrite rolling_mean_nth by lia. f_equal.
  rewrite (@window_mean_full (fun q => 0 <= q) w _ Hwin Hpos);
    [do 4 f_equal; exact Hlen | apply Nat.eq_le_incl; symmetry; exact Hlen].
Qed.

Lemma rsi_loss_value w data i :
  (i < length data)%nat -> (0 < w)%nat -> (w <= S i)%nat ->
  nth_error (rsi_loss w data) i =
    Some (Some (- (fsum (window_at w i (daily_losses data)) / inject_Z (Z.of_nat w)))).
Proof.
  intros Hi Hpos Hw. unfold rsi_loss. fold (daily_losses data).
  pose proof (losses_nonpos (diff data)) as Hg. fold (daily_losses data) in Hg.
  pose proof (daily_losses_length data) as Hs.
  assert (Hwin : Forall (fun x => exists q, x = Some q /\ q <= 0)
                   (window_at w i (daily_losses data))).
  { unfold window_at. now apply Forall_skipn_keep, Forall_firstn_keep. }
  assert (Hlen : length (window_at w i (daily_losses data)) = w).
  { rewrite window_at_length; lia. }
  apply map_nth_error with (f := fneg)
    (d := Some (fsum (window_at w i (daily_losses data)) / inject_Z (Z.of_nat w))).
  rewrite rolling_mean_nth by lia. f_equal.
  rewrite (@window_mean_full (fun q => q <= 0) w _ Hwin Hpos);
    [do 4 f_equal; exact Hlen | apply Nat.eq_le_incl; symmetry; exact Hlen].
Qed.

Lemma rsi_value_closed_form G L :
  0 <= G -> 0 <= L ->
  exists r,
    fsub (num 100)
      (fdiv (num 100)
         (fadd (num 1) (if feqb (Some L) (num 0) then num 0 else fdiv (Some G) (Some L))))
    = Some r /\
    0 <= r /\ r < 100 /\
    (L == 0 -> r == 0) /\
    (~ L == 0 -> r == 100 * G / (G + L)).
Proof.
  intros HG HL. cbv [fsub fdiv fadd lift2 num feqb NaN].
  destruct (Qeq_bool L 0) eqn:E.
  - destruct (Qeq_bool (1 + 0) 0) eqn:E1.
    { apply Qeq_bool_iff in E1. lra. }
    exists (100 - 100 / (1 + 0)). split; [reflexivity|].
    assert (100 - 100 / (1 + 0) == 0) as -> by (now field).
    apply Qeq_bool_iff in E.
    repeat split; try lra; intros Hn; contradiction.
  - apply Qeq_bool_neq in E.
    assert (HLpos : 0 < L).
    { destruct (Qle_lt_or_eq _ _ HL) as [?|Heq]; [assumption|].
      exfalso; apply E; now symmetry. }
    assert (Hrs : 0 <= G / L).
    { apply Qle_shift_div_l; [assumption|]. now rewrite Qmult_0_l. }
    destruct (Qeq_bool (1 + G / L) 0) eqn:E1.
    { apply Qeq_bool_iff in E1. lra. }
    exists (100 - 100 / (1 + G / L)). split; [reflexivity|].
    assert (Hform : 100 - 100 / (1 + G / L) == 100 * G / (G + L)).
    { field. split; lra. }
    assert (H2 : 0 <= 100 * G / (G + L)).
    { apply Qle_shift_div_l; [lra|]. rewrite Qmult_0_l. nra. }
    assert (H3 : 100 * G / (G + L) < 100).
    { apply Qlt_shift_div_r; lra. }
    rewrite Hform. repeat split; try lra; intros _; reflexivity.
Qed.

Lemma changes_of_sorted (R : Q -> Q -> Prop) (P : float -> Prop) :
  (forall a b, R a b -> P (Some (b - a))) ->
  forall r a, Sorted R (a :: r) ->
    Forall P (zip_with fsub (map Some r) (map Some (a :: r))).
Proof.
  intros HP. induction r as [|b r IH]; intros a Hs.
  - constructor.
  - apply Sorted_inv in Hs as [Hs Hd]. apply HdRel_inv in Hd.
    change (Forall P (Some (b - a) :: zip_with fsub (map Some r) (map Some (b :: r)))).
    constructor; [now apply HP | now apply IH].
Qed.

Lemma rising_has_no_losses qs :
  Sorted Qle qs -> Forall (fun x => x = Some 0) (daily_losses (map Some qs)).
Proof.
  intros Hs. unfold daily_losses. rewrite where_map.
  destruct qs as [|a r]; [constructor|].
  cbn [map diff]. constructor; [reflexivity|].
  apply Forall_map.
  apply (@changes_of_sorted Qle (fun d => (if flt d (num 0) then d else num 0) = Some 0));
    [|exact Hs].
  intros x y Hxy. cbn. destruct (Qlt_bool (y - x) 0) eqn:E; [|reflexivity].
  apply Qlt_bool_iff in E. lra.
Qed.

Lemma falling_has_no_gains qs :
  Sorted (fun a b => b <= a) qs ->
  Forall (fun x => x = Some 0) (daily_gains (map Some qs)).
Proof.
  intros Hs. unfold daily_gains. rewrite where_map.
  destruct qs as [|a r]; [constructor|].
  cbn [map diff]. constructor; [reflexivity|].
  apply Forall_map.
  apply (@changes_of_sorted (fun a b => b <= a)
           (fun d => (if fgt d (num 0) then d else num 0) = Some 0));
    [|exact Hs].
  intros x y Hxy. cbn. destruct (Qlt_bool 0 (y - x)) eqn:E; [|reflexivity].
  apply Qlt_bool_iff in E. lra.
Qed.

Lemma fsum_of_zeros l : Forall (fun x => x = Some 0) l -> fsum l == 0.
Proof.
  induction 1 as [|x l -> _ IH]; [reflexivity|].
  change (fsum (Some 0 :: l)) with (0 + fsum l). lra.
Qed.

Lemma rsi_entry w data i x :
  (0 < w)%nat ->
  nth_error (rsi_formula w data) i = Some (Some x) ->
  exists G L,
    nth_error (rsi_gain w data) i = Some (Some G) /\
    nth_error (rsi_loss w data) i = Some (Some L) /\
    G == fsum (window_at w i (daily_gains data)) / inject_Z (Z.of_nat w) /\
    L == - (fsum (window_at w i (daily_losses data)) / inject_Z (Z.of_nat w)) /\
    0 <= G /\ 0 <= L /\ 0 <= x /\ x < 100 /\
    (L == 0 -> x == 0) /\
    (~ L == 0 -> x == 100 * G / (G + L)).
Proof.
  intros Hpos Hx. pose proof (@nth_error_in_range _ _ _ _ Hx) as Hi.
  rewrite rsi_formula_length in Hi.
  destruct (Nat.lt_ge_cases (S i) w) as [Hw|Hw].
  { rewrite rsi_formula_warmup in Hx by assumption. discriminate. }
  pose proof (@rsi_gain_value w data i Hi Hpos Hw) as HGv.
  pose proof (@rsi_loss_value w data i Hi Hpos Hw) as HLv.
  destruct (@rsi_gain_full w data i Hi Hpos Hw) as [G [HG HGn]].
  destruct (@rsi_loss_full w data i Hi Hpos Hw) as [L [HL HLn]].
  destruct (@rsi_value_closed_form G L HG HL) as [r [Hr [H0 [H100 [Hz Hnz]]]]].
  rewrite (@rsi_formula_nth _ _ _ _ _ HGn HLn), Hr in Hx. injection Hx as <-.
  exists G, L. split; [exact HGn|]. split; [exact HLn|].
  split; [rewrite HGn in HGv; injection HGv as ->; reflexivity|].
  split; [rewrite HLn in HLv; injection HLv as ->; reflexivity|].
  auto 10.
Qed.



(** X5: on closes that never fall, and on closes that never rise, every
    defined RSI entry is 0: a steady rise reads 0 (no losses in any window),
    not 100. *)
Theorem monotone_series_has_zero_rsi (rsi_raises : list float -> option string)
    (closes : list Q) (window : nat) :
  (0 < window)%nat ->
  Sorted Qle closes \/ Sorted (fun a b => b <= a) closes ->
  exists rsi,
    returned (calculate_rsi rsi_raises (map Some closes) window) = Some rsi /\
    length rsi = length closes /\
    forall i x, nth_error rsi i = Some (Some x) -> x == 0.
Proof.
  intros Hpos Hmono. unfold calculate_rsi.
  destruct (rsi_raises (map Some closes)) as [e|].
  - exists (np_zeros (length (map Some closes))). split; [reflexivity|].
    split; [now rewrite np_zeros_length, length_map|].
    intros i x Hx. pose proof (@nth_error_in_range _ _ _ _ Hx) as Hi.
    rewrite np_zeros_length in Hi. rewrite np_zeros_nth in Hx by assumption.
    injection Hx as <-. reflexivity.
  - exists (rsi_formula window (map Some closes)). split; [reflexivity|].
    split; [now rewrite rsi_formula_length, length_map|].
    intros i x Hx.
    destruct (@rsi_entry window (map Some closes) i x Hpos Hx)
      as [G [L [_ [_ [HG [HL [_ [_ [_ [_ [Hz Hnz]]]]]]]]]]].
    destruct Hmono as [Hup|Hdown].
    + apply Hz. rewrite HL.
      rewrite (@fsum_of_zeros (window_at window i (daily_losses (map Some closes)))).
      * unfold Qdiv. ring.
      * unfold window_at. apply Forall_skipn_keep, Forall_firstn_keep.
        now apply rising_has_no_losses.
    + assert (HG0 : G == 0).
      { rewrite HG.
        rewrite (@fsum_of_zeros (window_at window i (daily_gains (map Some closes)))).
        - unfold Qdiv. ring.
        - unfold window_at. apply Forall_skipn_keep, Forall_firstn_keep.
          now apply falling_has_no_gains. }
      destruct (Qeq_dec L 0) as [HL0|HL0]; [now apply Hz|].
      rewrite (Hnz HL0), HG0. unfold Qdiv. ring.
Qed.

Lemma monotone_series_has_zero_rsi_witness :
  exists rsi,
    returned (calculate_rsi no_fault (map Some (map inject_Z [1; 2; 2; 5; 9]%Z)) 3)
      = Some rsi /\
    length rsi = length (map inject_Z [1; 2; 2; 5; 9]%Z) /\
    forall i x, nth_error rsi i = Some (Some x) -> x == 0.
Proof.
  apply (@monotone_series_has_zero_rsi no_fault (map inject_Z [1; 2; 2; 5; 9]%Z) 3).
  - lia.
  - left. cbn [map]. repeat (constructor; try (unfold Qle; cbn; lia)).
Defined.

(** ** MACD: flat series, price level and price scale *)

Lemma ema_from_respects w p p' xs ys :
  p == p' -> Forall2 Qeq xs ys ->
  Forall2 Qeq (Spec.ema_from w p xs) (Spec.ema_from w p' ys).
Proof.
  intros Hp H. revert p p' Hp. induction H as [|x y xs ys Hxy _ IH]; intros p p' Hp.
  - constructor.
  - cbn [Spec.ema_from].
    assert (Hy : w * x + (1 - w) * p == w * y + (1 - w) * p') by (now rewrite Hxy, Hp).
    constructor; [exact Hy | now apply IH].
Qed.

Lemma ema_respects span xs ys :
  Forall2 Qeq xs ys -> Forall2 Qeq (Spec.ema span xs) (Spec.ema span ys).
Proof.
  intros H. destruct H as [|x y xs ys Hxy H]; cbn [Spec.ema]; constructor; auto.
  now apply ema_from_respects.
Qed.

Lemma zip_minus_respects xs ys xs' ys' :
  Forall2 Qeq xs ys -> Forall2 Qeq xs' ys' ->
  Forall2 Qeq (zip_with Qminus xs xs') (zip_with Qminus ys ys').
Proof.
  intros H. revert xs' ys'. induction H as [|x y xs ys Hxy _ IH]; intros xs' ys' H'.
  - constructor.
  - destruct H' as [|x' y' xs' ys' Hxy' H']; [constructor|].
    unfold zip_with. cbn. constructor; [now rewrite Hxy, Hxy' | now apply IH].
Qed.

Lemma macd_oscillator_respects a b c xs ys :
  Forall2 Qeq xs ys ->
  Forall2 Qeq (Spec.macd_oscillator a b c xs) (Spec.macd_oscillator a b c ys).
Proof.
  intros H. unfold Spec.macd_oscillator.
  assert (Hline : Forall2 Qeq (zip_with Qminus (Spec.ema a xs) (Spec.ema b xs))
                              (zip_with Qminus (Spec.ema a ys) (Spec.ema b ys))).
  { apply zip_minus_respects; now apply ema_respects. }
  apply zip_minus_respects; [exact Hline | now apply ema_respects].
Qed.














Lemma ema_from_constant k w p xs :
  p == k -> Forall (fun x => x == k) xs ->
  Forall (fun y => y == k) (Spec.ema_from w p xs).
Proof.
  intros Hp H. revert p Hp. induction H as [|x xs Hx _ IH]; intros p Hp; cbn [Spec.ema_from].
  - constructor.
  - assert (Hy : w * x + (1 - w) * p == k) by (rewrite Hx, Hp; ring).
    constructor; [exact Hy | now apply IH].
Qed.

Lemma ema_constant k span xs :
  Forall (fun x => x == k) xs -> Forall (fun y => y == k) (Spec.ema span xs).
Proof.
  intros H. destruct H as [|x xs Hx H]; cbn [Spec.ema]; constructor; auto.
  now apply ema_from_constant.
Qed.

Lemma zip_minus_constant k xs ys :
  Forall (fun x => x == k) xs -> Forall (fun y => y == k) ys ->
  Forall (fun z => z == 0) (zip_with Qminus xs ys).
Proof.
  intros H. revert ys. induction H as [|x xs Hx _ IH]; intros ys H'.
  - constructor.
  - destruct H' as [|y ys Hy H']; [constructor|].
    unfold zip_with. cbn. constructor; [rewrite Hx, Hy; ring | now apply IH].
Qed.

Lemma series_eq_all_zero xs B :
  series_eq xs (map Some B) -> Forall (fun z => z == 0) B ->
  Forall (fun v => float_eq v (Some 0)) xs.
Proof.
  intros H HB. revert xs H. induction HB as [|b B Hb _ IH]; intros xs H.
  - inversion H; subst. constructor.
  - apply series_eq_cons_inv in H as [x [xs' [-> [Hx H]]]].
    constructor; [cbn; now rewrite Hx | now apply IH].
Qed.

(** X8: on flat closes the oscillator is 0 at every index, and on any closes
    that start with a number its first entry is 0 (all three averages are
    seeded by the first value). *)
Theorem macd_zero_on_flat_closes_and_at_start (macd_raises : list float -> option string)
    (short_window long_window signal_window : nat) :
  (forall (q : Q) (n : nat),
     exists macd,
       returned (calculate_macd macd_raises (repeat (Some q) n)
                   short_window long_window signal_window) = Some macd /\
       length macd = n /\
       Forall (fun v => float_eq v (Some 0)) macd) /\
  (forall (q0 : Q) (rest : list float),
     exists macd x,
       returned (calculate_macd macd_raises (Some q0 :: rest)
                   short_window long_window signal_window) = Some macd /\
       nth_error macd 0 = Some (Some x) /\ x == 0).
Proof.
  split.
  - intros q n. unfold calculate_macd.
    destruct (macd_raises (repeat (Some q) n)).
    + eexists. split; [reflexivity|]. rewrite repeat_length.
      split; [apply np_zeros_length|].
      eapply Forall_impl; [|apply np_zeros_forall].
      intros v ->. cbn. reflexivity.
    + eexists. split; [reflexivity|].
      split; [now rewrite macd_formula_length, repeat_length|].
      rewrite <- map_repeat.
      eapply series_eq_all_zero; [apply macd_formula_refines|].
      unfold Spec.macd_oscillator.
      assert (Hflat : Forall (fun x => x == q) (repeat q n)).
      { apply Forall_forall. intros x Hx. apply repeat_spec in Hx. now subst. }
      assert (Hline : Forall (fun z => z == 0)
                        (zip_with Qminus (Spec.ema short_window (repeat q n))
                                         (Spec.ema long_window (repeat q n)))).
      { apply zip_minus_constant with (k := q); now apply ema_constant. }
      apply zip_minus_constant with (k := 0); [exact Hline | now apply ema_constant].
  - intros q0 rest. unfold calculate_macd.
    destruct (macd_raises (Some q0 :: rest)).
    + exists (np_zeros (length (Some q0 :: rest))), 0.
      split; [reflexivity|]. split; reflexivity.
    + exists (macd_formula short_window long_window signal_window (Some q0 :: rest)),
        (q0 - q0 - (q0 - q0)).
      split; [reflexivity|]. split; [reflexivity | ring].
Qed.

(** ** RSI: price level and price scale *)




















(** ** The paths of the callback *)

Lemma get_stock_data_cases yf_download ticker :
  (exists e, yf_download ticker = inl e /\
     get_stock_data yf_download ticker =
       ([YfDownload ticker "3mo";
         ShowError "Data Fetch Error" ("Failed to fetch data: " ++ e)], inr None)) \/
  (yf_download ticker = inr [] /\
     get_stock_data yf_download ticker =
       ([YfDownload ticker "3mo";
         ShowError "Data Fetch Error"
           "Failed to fetch data: No data found for the given ticker."], inr None)) \/
  (exists frame, frame <> [] /\ yf_download ticker = inr frame /\
     get_stock_data yf_download ticker =
       ([YfDownload ticker "3mo"],
        inr (Some (map quote_of_bar (dropna bar_cells frame))))).
Proof.
  unfold get_stock_data. destruct (yf_download ticker) as [e|[|b frame]].
  - left. exists e. split; reflexivity.
  - right. left. split; reflexivity.
  - right. right. exists (b :: frame). split; [discriminate|]. split; reflexivity.
Qed.

Lemma dropna_defined_quotes frame :
  Forall quote_defined (map quote_of_bar (dropna bar_cells frame)).
Proof.
  apply Forall_map. unfold dropna. apply Forall_forall. intros b Hb.
  apply filter_In in Hb as [_ Hb]. unfold no_nan, bar_cells in Hb. cbn in Hb.
  apply andb_true_iff in Hb as [Hc Hb]. apply andb_true_iff in Hb as [Hv _].
  split; cbn; [now destruct (isnan (bar_close b)) | now destruct (isnan (bar_volume b))].
Qed.

(** X10: [get_stock_data] never leaves the callback.  It yields no frame
    exactly when the download raises or comes back empty, and then shows one
    error dialog; otherwise it shows none and yields the rows of the frame
    that hold no NaN in any column, in their order, reduced to close and
    volume. *)
Theorem get_stock_data_result (yf_download : string -> string + list bar)
    (ticker : string) :
  exists t fetched,
    get_stock_data yf_download ticker = (YfDownload ticker "3mo" :: t, inr fetched) /\
    (fetched = None <->
       (exists e, yf_download ticker = inl e) \/ yf_download ticker = inr []) /\
    (fetched = None -> exists msg, t = [ShowError "Data Fetch Error" msg]) /\
    (forall data, fetched = Some data ->
       t = [] /\
       Forall quote_defined data /\
       exists frame,
         yf_download ticker = inr frame /\
         data = map quote_of_bar (filter (fun b => no_nan (bar_cells b)) frame) /\
         (length data <= length frame)%nat).
Proof.
  destruct (get_stock_data_cases yf_download ticker)
    as [[e [Hy ->]]|[[Hy ->]|[frame [Hne [Hy ->]]]]].
  - do 2 eexists. split; [reflexivity|]. split; [|split].
    + split; [intros _; left; now exists e | reflexivity].
    + intros _. eexists. reflexivity.
    + intros data Hd. discriminate Hd.
  - do 2 eexists. split; [reflexivity|]. split; [|split].
    + split; [intros _; now right | reflexivity].
    + intros _. eexists. reflexivity.
    + intros data Hd. discriminate Hd.
  - do 2 eexists. split; [reflexivity|]. split; [|split].
    + split; [discriminate|]. intros [[e He]|He]; rewrite Hy in He; [discriminate|].
      injection He as ->. contradiction.
    + discriminate.
    + intros data [= <-]. split; [reflexivity|].
      split; [apply dropna_defined_quotes|].
      exists frame. split; [exact Hy|]. split; [reflexivity|].
      rewrite length_map. apply filter_length_le.
Qed.

Lemma get_stock_data_result_witness :
  exists t fetched,
    get_stock_data (fun _ => inr [mkBar (num 1) (num 5) [NaN]; mkBar (num 2) (num 6) []])
      "AAPL" = (YfDownload "AAPL" "3mo" :: t, inr fetched) /\
    fetched = Some [mkQuote (num 2) (num 6)] /\ t = [].
Proof.
  destruct (get_stock_data_result
              (fun _ => inr [mkBar (num 1) (num 5) [NaN]; mkBar (num 2) (num 6) []]) "AAPL")
    as [t [fetched [Hrun [_ [_ Hsome]]]]].
  exists t, fetched. split; [exact Hrun|].
  assert (Hf : fetched = Some [mkQuote (num 2) (num 6)]).
  { cbv in Hrun. now injection Hrun as _ <-. }
  split; [exact Hf|]. now destruct (Hsome _ Hf).
Defined.

Lemma predict_cases (model : predictor) (sc : scaler) (data : list features) :
  (exists e,
     (sc (map cells data) = inl e \/
      exists scaled_data, sc (map cells data) = inr scaled_data /\
                          extract_window scaled_data = inl e) /\
     predict model sc data =
       (ScalerTransform :: prediction_error_events e, inl PredictionError)) \/
  (exists scaled_data X_input e,
     sc (map cells data) = inr scaled_data /\
     extract_window scaled_data = inr X_input /\
     (model X_input = inl e \/
      (model X_input = inr [] /\ e = "index 0 is out of bounds")) /\
     predict model sc data =
       (ScalerTransform :: ModelPredict :: prediction_error_events e,
        inl PredictionError)) \/
  (exists scaled_data X_input prediction others,
     sc (map cells data) = inr scaled_data /\
     extract_window scaled_data = inr X_input /\
     model X_input = inr (prediction :: others) /\
     predict model sc data = ([ScalerTransform; ModelPredict], inr prediction)).
Proof.
  unfold predict. destruct (sc (map cells data)) as [e|scaled_data] eqn:Hsc.
  - left. exists e. split; [now left | reflexivity].
  - destruct (extract_window scaled_data) as [e|X_input] eqn:Hw.
    + left. exists e. split; [right; now exists scaled_data | reflexivity].
    + destruct (model X_input) as [e|[|prediction others]] eqn:Hm.
      * right. left. exists scaled_data, X_input, e.
        split; [reflexivity|]. split; [exact Hw|]. split; [now left | reflexivity].
      * right. left. exists scaled_data, X_input, "index 0 is out of bounds".
        split; [reflexivity|]. split; [exact Hw|]. split; [now right | reflexivity].
      * right. right. exists scaled_data, X_input, prediction, others.
        split; [reflexivity|]. split; [exact Hw|]. split; [exact Hm | reflexivity].
Qed.

Section Paths.

Variables str_upper str_strip : string -> string.
Variable format_1f : float -> string.
Variable yf_download : string -> string + list bar.
Variables rsi_raises macd_raises : list float -> option string.
Variable load_model : string -> load_exn + predictor.
Variable joblib_load : string -> load_exn + scaler.

Local Abbreviation run_callback :=
  (predict_stock_trend str_upper str_strip format_1f yf_download
     rsi_raises macd_raises load_model joblib_load).
Local Abbreviation run_forecast := (forecast format_1f load_model joblib_load).

(** The paths through lines 87 to 127. *)
Lemma forecast_cases ticker data :
  ((length data < 30)%nat /\
     run_forecast ticker data = (insufficient_events, inl InsufficientData)) \/
  ((30 <= length data)%nat /\ exists e,
     load_model "stock_trend_model.h5" = inl e /\
     run_forecast ticker data =
       (LoadModel "stock_trend_model.h5" :: load_error_events e,
        inl (load_error_outcome e))) \/
  ((30 <= length data)%nat /\ exists model e,
     load_model "stock_trend_model.h5" = inr model /\
     joblib_load "scaler.pkl" = inl e /\
     run_forecast ticker data =
       (LoadModel "stock_trend_model.h5" :: JoblibLoad "scaler.pkl"
          :: load_error_events e, inl (load_error_outcome e))) \/
  ((30 <= length data)%nat /\ exists model sc t,
     load_model "stock_trend_model.h5" = inr model /\
     joblib_load "scaler.pkl" = inr sc /\
     predict model sc data = (t, inl PredictionError) /\
     run_forecast ticker data =
       (LoadModel "stock_trend_model.h5" :: JoblibLoad "scaler.pkl" :: t,
        inl PredictionError)) \/
  ((30 <= length data)%nat /\ exists model sc prediction,
     load_model "stock_trend_model.h5" = inr model /\
     joblib_load "scaler.pkl" = inr sc /\
     predict model sc data = ([ScalerTransform; ModelPredict], inr prediction) /\
     ((decide format_1f ticker prediction = None /\
       run_forecast ticker data =
         ([LoadModel "stock_trend_model.h5"; JoblibLoad "scaler.pkl";
           ScalerTransform; ModelPredict],
          inl (Uncaught "attempt to get argmax of an empty sequence"))) \/
      (exists p,
         decide format_1f ticker prediction = Some p /\
         run_forecast ticker data =
           ([LoadModel "stock_trend_model.h5"; JoblibLoad "scaler.pkl";
             ScalerTransform; ModelPredict;
             ResultLabel (result_text p) (result_color p); ButtonState true],
            inr (Done p))))).
Proof.
  unfold forecast, LOOKBACK_DAYS.
  destruct (Nat.ltb_spec (length data) 30) as [Hlt|Hge].
  { left. split; [exact Hlt | reflexivity]. }
  right. unfold load_artifacts.
  destruct (load_model "stock_trend_model.h5") as [e|model] eqn:Hlm.
  { left. split; [exact Hge|]. exists e. split; [reflexivity|]. now destruct e. }
  right. destruct (joblib_load "scaler.pkl") as [e|sc] eqn:Hjl.
  { left. split; [exact Hge|]. exists model, e.
    split; [reflexivity|]. split; [reflexivity|]. now destruct e. }
  right. cbn [bind emit ret prepend fst snd app].
  destruct (predict_cases model sc data)
    as [[e [_ Hp]]|[[sd [X [e [_ [_ [_ Hp]]]]]]|[sd [X [pr [others [_ [_ [_ Hp]]]]]]]]].
  - left. split; [exact Hge|]. exists model, sc, (ScalerTransform :: prediction_error_events e).
    split; [reflexivity|]. split; [reflexivity|]. split; [exact Hp|].
    rewrite Hp. reflexivity.
  - left. split; [exact Hge|].
    exists model, sc, (ScalerTransform :: ModelPredict :: prediction_error_events e).
    split; [reflexivity|]. split; [reflexivity|]. split; [exact Hp|].
    rewrite Hp. reflexivity.
  - right. split; [exact Hge|]. exists model, sc, pr.
    split; [reflexivity|]. split; [reflexivity|]. split; [exact Hp|].
    rewrite Hp. cbn [bind prepend fst snd app].
    destruct (decide format_1f ticker pr) as [p|] eqn:Hd.
    + right. exists p. split; reflexivity.
    + left. split; reflexivity.
Qed.

Lemma add_indicators_dialogs data :
  exists t table,
    add_indicators rsi_raises macd_raises data = (t, inr table) /\
    Forall (fun e => exists title msg, e = ShowError title msg) t /\
    (length table <= length data)%nat.
Proof.
  destruct (add_indicators_returns rsi_raises macd_raises data)
    as [t1 [rsi [t2 [macd [H1 [H2 [Hl1 [Hl2 [Hadd _]]]]]]]]].
  exists (t1 ++ t2)%list, (dropna cells (all_rows data rsi macd)).
  split; [exact Hadd|]. split.
  - apply Forall_app. split.
    + destruct (calculate_rsi_cases rsi_raises (map q_close data) 14)
        as [[_ E]|[e [_ E]]]; rewrite E in H1; injection H1 as <- _;
        repeat constructor. now do 2 eexists.
    + destruct (calculate_macd_cases macd_raises (map q_close data) 12 26 9)
        as [[_ E]|[e [_ E]]]; rewrite E in H2; injection H2 as <- _;
        repeat constructor. now do 2 eexists.
  - pose proof (dropna_length_le cells (all_rows data rsi macd)) as Hle.
    rewrite all_rows_length in Hle by assumption. exact Hle.
Qed.

(** The paths through lines 63 to 85. *)
Lemma callback_cases entry_text :
  (str_strip (str_upper entry_text) = "" /\
   run_callback entry_text =
     ([ShowWarning "Input Error" "Please enter a stock ticker."], InputError)) \/
  (str_strip (str_upper entry_text) <> "" /\
   exists t,
     run_callback entry_text =
       ((opening (str_strip (str_upper entry_text)) ++ t ++ fetch_failed_events)%list,
        FetchFailed) /\
     (((exists e, yf_download (str_strip (str_upper entry_text)) = inl e) \/
       yf_download (str_strip (str_upper entry_text)) = inr []) /\
      (exists msg, t = [ShowError "Data Fetch Error" msg]) \/
      (exists frame, frame <> [] /\
         yf_download (str_strip (str_upper entry_text)) = inr frame /\
         dropna bar_cells frame = []) /\ t = [])) \/
  (str_strip (str_upper entry_text) <> "" /\
   exists frame q rest t table,
     yf_download (str_strip (str_upper entry_text)) = inr frame /\
     map quote_of_bar (dropna bar_cells frame) = q :: rest /\
     add_indicators rsi_raises macd_raises (q :: rest) = (t, inr table) /\
     Forall (fun e => exists title msg, e = ShowError title msg) t /\
     run_callback entry_text =
       finish (prepend (opening (str_strip (str_upper entry_text)) ++ t)%list
                 (run_forecast (str_strip (str_upper entry_text)) table))).
Proof.
  destruct (String.eqb_spec (str_strip (str_upper entry_text)) "") as [Hempty|Hticker].
  { left. split; [exact Hempty|]. unfold predict_stock_trend.
    rewrite Hempty. reflexivity. }
  right.
  destruct (get_stock_data_cases yf_download (str_strip (str_upper entry_text)))
    as [[e [Hy Hg]]|[[Hy Hg]|[frame [Hne [Hy Hg]]]]].
  - left. split; [exact Hticker|]. eexists. split.
    + unfold predict_stock_trend. apply String.eqb_neq in Hticker.
      rewrite Hticker, Hg. reflexivity.
    + left. split; [left; now exists e | now eexists].
  - left. split; [exact Hticker|]. eexists. split.
    + unfold predict_stock_trend. apply String.eqb_neq in Hticker.
      rewrite Hticker, Hg. reflexivity.
    + left. split; [now right | now eexists].
  - destruct (map quote_of_bar (dropna bar_cells frame)) as [|q rest] eqn:Hdata.
    + left. split; [exact Hticker|]. exists []. split.
      * unfold predict_stock_trend. apply String.eqb_neq in Hticker.
        rewrite Hticker, Hg. reflexivity.
      * right. split; [|reflexivity]. exists frame.
        split; [exact Hne|]. split; [exact Hy|].
        destruct (dropna bar_cells frame); [reflexivity | discriminate Hdata].
    + right. split; [exact Hticker|].
      destruct (add_indicators_dialogs (q :: rest)) as [t [table [Hadd [Hdlg _]]]].
      exists frame, q, rest, t, table.
      split; [exact Hy|]. split; [exact Hdata|]. split; [exact Hadd|].
      split; [exact Hdlg|].
      apply (@callback_reaches_forecast str_upper str_strip format_1f yf_download
               rsi_raises macd_raises load_model joblib_load entry_text frame q rest t table);
        assumption.
Qed.

End Paths.

(** ** What every run does *)

Lemma last_app_nonempty {A} (l1 l2 : list A) d :
  l2 <> [] -> last (l1 ++ l2) d = last l2 d.
Proof.
  intros Hne. induction l1 as [|x l1 IH]; [reflexivity|].
  cbn [app]. destruct (l1 ++ l2)%list eqn:E.
  - apply app_eq_nil in E as [_ ->]. contradiction.
  - rewrite <- E in *. cbn. rewrite E. rewrite <- E. exact IH.
Qed.

Lemma dialogs_are_not_buttons t b :
  Forall (fun e => exists title msg, e = ShowError title msg) t ->
  ~ In (ButtonState b) t.
Proof.
  intros H Hin. rewrite Forall_forall in H.
  destruct (H _ Hin) as [title [msg E]]. discriminate E.
Qed.

Lemma dialogs_are_not_calls t :
  Forall (fun e => exists title msg, e = ShowError title msg) t ->
  Forall (fun e => is_collaborator_call e = false) t.
Proof.
  intros H. eapply Forall_impl; [|exact H]. intros e [title [msg ->]]. reflexivity.
Qed.

Ltac no_such_event H :=
  cbn in H; repeat (destruct H as [H|H]; [discriminate H|]); destruct H.

Ltac summary_case :=
  do 2 eexists; split; [reflexivity|]; cbn [fst snd];
  split; [discriminate|]; split; [discriminate|]; split; [discriminate|];
  split; [let H := fresh in intros H; no_such_event H|];
  split; [let H := fresh in
          intros H; first [reflexivity | exfalso; eapply H; reflexivity]|];
  split; [let e := fresh in let He := fresh in
          intros e He;
          first [discriminate He | let H := fresh in intros H; no_such_event H]|];
  split; [split; (let H := fresh in intros H; first [reflexivity | discriminate H | lia])|];
  let H := fresh in intros H; first [reflexivity | lia].

Section Runs.

Variables str_upper str_strip : string -> string.
Variable format_1f : float -> string.
Variable yf_download : string -> string + list bar.
Variables rsi_raises macd_raises : list float -> option string.
Variable load_model : string -> load_exn + predictor.
Variable joblib_load : string -> load_exn + scaler.

Local Abbreviation run_callback :=
  (predict_stock_trend str_upper str_strip format_1f yf_download
     rsi_raises macd_raises load_model joblib_load).
Local Abbreviation run_forecast := (forecast format_1f load_model joblib_load).
Local Abbreviation cases_of_callback :=
  (callback_cases str_upper str_strip format_1f yf_download
     rsi_raises macd_raises load_model joblib_load).
Local Abbreviation cases_of_forecast := (forecast_cases format_1f load_model joblib_load).

(** What lines 87 to 127 leave behind, whatever the path. *)
Lemma forecast_summary ticker data :
  exists t o,
    finish (run_forecast ticker data) = (t, o) /\
    o <> InputError /\ o <> FetchFailed /\
    t <> [] /\
    ~ In (ButtonState false) t /\
    ((forall e, o <> Uncaught e) -> last t RootUpdate = ButtonState true) /\
    (forall e, o = Uncaught e -> ~ In (ButtonState true) t) /\
    (o = InsufficientData <-> (length data < 30)%nat) /\
    ((30 <= length data)%nat -> hd_error t = Some (LoadModel "stock_trend_model.h5")).
Proof.
  destruct (cases_of_forecast ticker data) as [C|[C|[C|[C|C]]]].
  1: destruct C as [Hlen ->].
  2: destruct C as [Hlen [e [_ ->]]].
  3: destruct C as [Hlen [m [e [_ [_ ->]]]]].
  4: destruct C as [Hlen [m [sc [t [_ [_ [Hp ->]]]]]]].
  5: destruct C as [Hlen [m [sc [pr [_ [_ [_ D]]]]]]];
     destruct D as [[_ ->]|[p [_ ->]]].
  - summary_case.
  - destruct e; summary_case.
  - destruct e; summary_case.
  - destruct (predict_cases m sc data)
      as [[e [_ E]]|[[sd [X [e [_ [_ [_ E]]]]]]|[sd [X [pr [ot [_ [_ [_ E]]]]]]]]];
      rewrite E in Hp; try discriminate Hp; injection Hp as <-; summary_case.
  - summary_case.
  - summary_case.
Qed.

Lemma callback_forecast_run entry_text t table :
  run_callback entry_text =
    finish (prepend (opening (str_strip (str_upper entry_text)) ++ t)%list
              (run_forecast (str_strip (str_upper entry_text)) table)) ->
  exists tf o,
    finish (run_forecast (str_strip (str_upper entry_text)) table) = (tf, o) /\
    run_callback entry_text =
      (((opening (str_strip (str_upper entry_text)) ++ t) ++ tf)%list, o).
Proof.
  intros Hrun. rewrite finish_prepend in Hrun.
  destruct (finish (run_forecast (str_strip (str_upper entry_text)) table)) as [tf o].
  exists tf, o. split; [reflexivity | exact Hrun].
Qed.

(** X11: a blank ticker ends the run with one warning and nothing else, and
    the run ends as a failed fetch exactly when there is a ticker and the
    download raises, comes back empty, or holds a NaN in every row. *)
Theorem early_exits (entry_text : string) :
  (snd (run_callback entry_text) = InputError <->
     str_strip (str_upper entry_text) = "") /\
  (str_strip (str_upper entry_text) = "" ->
     fst (run_callback entry_text) =
       [ShowWarning "Input Error" "Please enter a stock ticker."]) /\
  (snd (run_callback entry_text) = FetchFailed <->
     str_strip (str_upper entry_text) <> "" /\
     ((exists e, yf_download (str_strip (str_upper entry_text)) = inl e) \/
      (exists frame, yf_download (str_strip (str_upper entry_text)) = inr frame /\
                     dropna bar_cells frame = []))) /\
  (snd (run_callback entry_text) = FetchFailed ->
     Forall (fun e => is_collaborator_call e = false) (fst (run_callback entry_text))).
Proof.
  destruct (cases_of_callback entry_text) as [C|[C|C]].
  - destruct C as [Hempty ->]. cbn [fst snd].
    split; [split; [intros _; exact Hempty | reflexivity]|].
    split; [reflexivity|].
    split; [|discriminate].
    split; [discriminate | intros [Hne _]; contradiction].
  - destruct C as [Hticker [t [-> Hwhy]]]. cbn [fst snd].
    split; [split; [discriminate | intros H; contradiction]|].
    split; [intros H; contradiction|].
    split.
    + split; [|reflexivity]. intros _. split; [exact Hticker|].
      destruct Hwhy as [[[[e He]|He] _]|[[frame [_ [Hy Hd]]] _]].
      * left. now exists e.
      * right. exists []. split; [exact He | reflexivity].
      * right. now exists frame.
    + intros _. unfold opening, fetch_failed_events.
      destruct Hwhy as [[_ [msg ->]]|[_ ->]]; repeat constructor.
  - destruct C as [Hticker [frame [q [rest [t [table [Hy [Hdata [_ [Hdlg Hrun]]]]]]]]]].
    destruct (callback_forecast_run _ _ _ Hrun) as [tf [o [Hf ->]]].
    destruct (forecast_summary (str_strip (str_upper entry_text)) table)
      as [tf' [o' [Hf' [Hni [Hnf _]]]]].
    rewrite Hf in Hf'. injection Hf' as <- <-. cbn [fst snd].
    split; [split; [intros H; contradiction | intros H; contradiction]|].
    split; [intros H; contradiction|].
    split; [|intros H; contradiction].
    split; [intros H; contradiction|].
    intros [_ [[e He]|[frame' [Hy' Hd]]]].
    + rewrite Hy in He. discriminate He.
    + rewrite Hy in Hy'. injection Hy' as <-. rewrite Hd in Hdata. discriminate Hdata.
Qed.

(** X12: with a ticker, the run first disables the button; on every path
    that returns it enables it again as its last step; on the one path that
    leaves with an exception (an empty answer of the model) the button is
    never enabled again. *)
Theorem button_is_released (entry_text : string) :
  str_strip (str_upper entry_text) <> "" ->
  hd_error (fst (predict_stock_trend str_upper str_strip format_1f yf_download
          rsi_raises macd_raises load_model joblib_load entry_text)) = Some (ButtonState false) /\
  ((forall e, snd (predict_stock_trend str_upper str_strip format_1f yf_download
          rsi_raises macd_raises load_model joblib_load entry_text) <> Uncaught e) ->
     last (fst (predict_stock_trend str_upper str_strip format_1f yf_download
          rsi_raises macd_raises load_model joblib_load entry_text)) RootUpdate = ButtonState true) /\
  (forall e, snd (predict_stock_trend str_upper str_strip format_1f yf_download
          rsi_raises macd_raises load_model joblib_load entry_text) = Uncaught e ->
     ~ In (ButtonState true) (fst (predict_stock_trend str_upper str_strip format_1f yf_download
          rsi_raises macd_raises load_model joblib_load entry_text))).
Proof.
  intros Hticker.
  destruct (cases_of_callback entry_text) as [C|[C|C]].
  - destruct C as [Hempty _]. contradiction.
  - destruct C as [_ [t [-> _]]]. cbn [fst snd].
    split; [reflexivity|]. split; [|intros e He; discriminate He].
    intros _. rewrite app_assoc.
    rewrite last_app_nonempty by (unfold fetch_failed_events; discriminate).
    reflexivity.
  - destruct C as [_ [frame [q [rest [t [table [_ [_ [_ [Hdlg Hrun]]]]]]]]]].
    destruct (callback_forecast_run _ _ _ Hrun) as [tf [o [Hf ->]]].
    destruct (forecast_summary (str_strip (str_upper entry_text)) table)
      as [tf' [o' [Hf' [_ [_ [Hne [_ [Hlast [Hunc _]]]]]]]]].
    rewrite Hf in Hf'. injection Hf' as <- <-. cbn [fst snd].
    split; [reflexivity|]. split.
    + intros Hret. rewrite last_app_nonempty by exact Hne. now apply Hlast.
    + intros e He Hin. rewrite !in_app_iff in Hin.
      destruct Hin as [[Hin|Hin]|Hin].
      * no_such_event Hin.
      * exact (@dialogs_are_not_buttons t true Hdlg Hin).
      * exact (Hunc e He Hin).
Qed.

Lemma clean_table (data : list quote) :
  Forall quote_defined data ->
  rsi_raises (map q_close data) = None ->
  macd_raises (map q_close data) = None ->
  add_indicators rsi_raises macd_raises data =
    ([], inr (skipn 13 (all_rows data (rsi_formula 14 (map q_close data))
                                      (macd_formula 12 26 9 (map q_close data))))) /\
  length (skipn 13 (all_rows data (rsi_formula 14 (map q_close data))
                                  (macd_formula 12 26 9 (map q_close data))))
    = (length data - 13)%nat.
Proof.
  intros Hdata Hr Hm.
  destruct (closes_defined Hdata) as [qs Hqs].
  assert (Hmacd : Forall (fun v => isnan v = false) (macd_formula 12 26 9 (map q_close data))).
  { rewrite Hqs. apply macd_formula_defined. }
  assert (Hl1 : length (rsi_formula 14 (map q_close data)) = length data).
  { now rewrite rsi_formula_length, length_map. }
  assert (Hl2 : length (macd_formula 12 26 9 (map q_close data)) = length data).
  { now rewrite macd_formula_length, length_map. }
  destruct (@assemble_drops_warmup data _ _ 13 0 Hdata Hl1 Hl2) as [Ha Hlen].
  { intros i v Hv. apply (@rsi_formula_defined_iff 14 (map q_close data) i v); [lia | exact Hv]. }
  { now apply defined_iff_no_warmup. }
  split; [|exact Hlen].
  assert (H1 : calculate_rsi rsi_raises (map q_close data) 14
               = ([], inr (rsi_formula 14 (map q_close data)))).
  { unfold calculate_rsi. now rewrite Hr. }
  assert (H2 : calculate_macd macd_raises (map q_close data) 12 26 9
               = ([], inr (macd_formula 12 26 9 (map q_close data)))).
  { unfold calculate_macd. now rewrite Hm. }
  destruct (@add_indicators_assembles _ _ _ _ _ _ _ H1 H2 Hl1 Hl2) as [Hadd Hasm].
  rewrite Hadd. cbn [app]. do 2 f_equal.
  rewrite Hasm in Ha. now injection Ha.
Qed.

(** A frame without NaN and without faults reaches line 87 with the rows
    from the fourteenth on. *)
Lemma clean_frame_run entry_text frame :
  str_strip (str_upper entry_text) <> "" ->
  yf_download (str_strip (str_upper entry_text)) = inr frame ->
  frame <> [] ->
  Forall (fun b => no_nan (bar_cells b) = true) frame ->
  rsi_raises (map bar_close frame) = None ->
  macd_raises (map bar_close frame) = None ->
  exists table,
    table = skipn 13 (all_rows (map quote_of_bar frame)
                        (rsi_formula 14 (map bar_close frame))
                        (macd_formula 12 26 9 (map bar_close frame))) /\
    length table = (length frame - 13)%nat /\
    run_callback entry_text =
      finish (prepend (opening (str_strip (str_upper entry_text)))
                (run_forecast (str_strip (str_upper entry_text)) table)).
Proof.
  intros Hticker Hy Hne Hclean Hr Hm.
  assert (Hcloses : map q_close (map quote_of_bar frame) = map bar_close frame).
  { rewrite map_map. reflexivity. }
  assert (Hdef : Forall quote_defined (map quote_of_bar frame)).
  { rewrite <- (dropna_all bar_cells Hclean). apply dropna_defined_quotes. }
  destruct (@clean_table (map quote_of_bar frame) Hdef) as [Hadd Hlen];
    rewrite ?Hcloses; try assumption.
  rewrite Hcloses in Hadd, Hlen. rewrite length_map in Hlen.
  eexists. split; [reflexivity|]. split; [exact Hlen|].
  destruct frame as [|b frame']; [contradiction|].
  assert (Hdata : map (fun b0 => mkQuote (bar_close b0) (bar_volume b0))
                    (dropna bar_cells (b :: frame'))
                  = quote_of_bar b :: map quote_of_bar frame').
  { now rewrite (dropna_all bar_cells Hclean). }
  pose proof (@callback_reaches_forecast str_upper str_strip format_1f yf_download
                rsi_raises macd_raises load_model joblib_load entry_text (b :: frame')
                (quote_of_bar b) (map quote_of_bar frame') [] _ Hticker Hy Hdata Hadd)
    as Hrun.
  rewrite app_nil_r in Hrun. exact Hrun.
Qed.

(** X13: a frame without missing values needs at least 43 rows: with fewer
    the run ends as insufficient data, with 43 or more it goes on to load
    the model (13 rows are lost to the RSI warm-up, 30 are needed). *)
Theorem forty_three_rows_needed (entry_text : string) (frame : list bar) :
  str_strip (str_upper entry_text) <> "" ->
  yf_download (str_strip (str_upper entry_text)) = inr frame ->
  frame <> [] ->
  Forall (fun b => no_nan (bar_cells b) = true) frame ->
  rsi_raises (map bar_close frame) = None ->
  macd_raises (map bar_close frame) = None ->
  (snd (run_callback entry_text) = InsufficientData <-> (length frame < 43)%nat) /\
  ((43 <= length frame)%nat ->
     exists t, fst (run_callback entry_text) =
                 (opening (str_strip (str_upper entry_text))
                    ++ LoadModel "stock_trend_model.h5" :: t)%list).
Proof.
  intros Hticker Hy Hne Hclean Hr Hm.
  destruct (clean_frame_run Hticker Hy Hne Hclean Hr Hm) as [table [_ [Hlen Hrun]]].
  rewrite <- (app_nil_r (opening _)) in Hrun.
  destruct (callback_forecast_run _ _ _ Hrun) as [tf [o [Hf ->]]].
  destruct (forecast_summary (str_strip (str_upper entry_text)) table)
    as [tf' [o' [Hf' [_ [_ [_ [_ [_ [_ [Hins Hload]]]]]]]]]].
  rewrite Hf in Hf'. injection Hf' as <- <-. cbn [fst snd].
  split.
  - rewrite Hins, Hlen. lia.
  - intros Hrows. destruct tf as [|e tf]; [discriminate Hload; lia|].
    assert (He : Some e = Some (LoadModel "stock_trend_model.h5")).
    { apply Hload. lia. }
    injection He as ->. exists tf. now rewrite app_nil_r.
Qed.

Lemma forecast_after_failed_load ticker data :
  (forall e, load_model "stock_trend_model.h5" = inl e ->
     exists t o,
       finish (run_forecast ticker data) = (t, o) /\
       Forall (fun ev => follows_model_load ev = false) t /\
       (forall p, o <> Done p) /\
       (In (LoadModel "stock_trend_model.h5") t ->
          o = load_error_outcome e /\ exists t', t = (t' ++ load_error_events e)%list)) /\
  (forall e, joblib_load "scaler.pkl" = inl e ->
     exists t o,
       finish (run_forecast ticker data) = (t, o) /\
       Forall (fun ev => is_inference ev = false) t /\
       (forall p, o <> Done p) /\
       (In (JoblibLoad "scaler.pkl") t ->
          o = load_error_outcome e /\ exists t', t = (t' ++ load_error_events e)%list)).
Proof.
  split; intros e He;
    (destruct (cases_of_forecast ticker data) as [C|[C|[C|[C|C]]]];
     [ destruct C as [_ ->]
     | destruct C as [_ [e' [He' ->]]]
     | destruct C as [_ [m [e' [Hm [He' ->]]]]]
     | destruct C as [_ [m [sc [t [Hm [Hsc [_ ->]]]]]]]
     | destruct C as [_ [m [sc [pr [Hm [Hsc [_ D]]]]]]];
       destruct D as [[_ ->]|[p [_ ->]]] ]);
    try (rewrite He in *; discriminate);
    try (rewrite He in He'; injection He' as <-);
    do 2 eexists; (split; [reflexivity|]); cbn [fst snd].
  - split; [repeat constructor|]. split; [discriminate|].
    intros H. no_such_event H.
  - split; [destruct e; repeat constructor|].
    split; [destruct e; discriminate|].
    intros _. split; [reflexivity|].
    exists [LoadModel "stock_trend_model.h5"]. reflexivity.
  - split; [repeat constructor|]. split; [discriminate|].
    intros H. no_such_event H.
  - split; [destruct e'; repeat constructor|].
    split; [destruct e'; discriminate|].
    intros H. exfalso. destruct e'; no_such_event H.
  - split; [destruct e; repeat constructor|].
    split; [destruct e; discriminate|].
    intros _. split; [reflexivity|].
    exists [LoadModel "stock_trend_model.h5"; JoblibLoad "scaler.pkl"]. reflexivity.
Qed.

(** X14: when the model cannot be loaded the scaler is not loaded either,
    nothing is transformed or predicted and no prediction is shown; once the
    model is asked for, the run ends as a file error for a missing file and
    as a loading error otherwise.  The same holds for the scaler, which is
    loaded second. *)
Theorem load_failure_stops_the_run (entry_text : string) :
  (forall e, load_model "stock_trend_model.h5" = inl e ->
     Forall (fun ev => follows_model_load ev = false) (fst (run_callback entry_text)) /\
     (forall p, snd (run_callback entry_text) <> Done p) /\
     (In (LoadModel "stock_trend_model.h5") (fst (run_callback entry_text)) ->
        snd (run_callback entry_text) = load_error_outcome e /\
        exists t, fst (run_callback entry_text) = (t ++ load_error_events e)%list)) /\
  (forall e, joblib_load "scaler.pkl" = inl e ->
     Forall (fun ev => is_inference ev = false) (fst (run_callback entry_text)) /\
     (forall p, snd (run_callback entry_text) <> Done p) /\
     (In (JoblibLoad "scaler.pkl") (fst (run_callback entry_text)) ->
        snd (run_callback entry_text) = load_error_outcome e /\
        exists t, fst (run_callback entry_text) = (t ++ load_error_events e)%list)).
Proof.
  destruct (cases_of_callback entry_text) as [C|[C|C]].
  - destruct C as [_ ->]. cbn [fst snd].
    split; intros e _; (split; [repeat constructor|]); (split; [discriminate|]);
      intros H; no_such_event H.
  - destruct C as [_ [t [-> Hwhy]]]. cbn [fst snd].
    assert (Ht : Forall (fun e => exists title msg, e = ShowError title msg) t).
    { destruct Hwhy as [[_ [msg ->]]|[_ ->]]; repeat constructor. now do 2 eexists. }
    split; intros e _.
    + split.
      * apply Forall_app. split; [repeat constructor|].
        apply Forall_app. split; [|repeat constructor].
        eapply Forall_impl; [|exact Ht]. intros ev [a [b ->]]. reflexivity.
      * split; [discriminate|]. intros H. exfalso.
        rewrite !in_app_iff in H. destruct H as [H|[H|H]];
          [no_such_event H | | no_such_event H].
        rewrite Forall_forall in Ht. destruct (Ht _ H) as [a [b E]]. discriminate E.
    + split.
      * apply Forall_app. split; [repeat constructor|].
        apply Forall_app. split; [|repeat constructor].
        eapply Forall_impl; [|exact Ht]. intros ev [a [b ->]]. reflexivity.
      * split; [discriminate|]. intros H. exfalso.
        rewrite !in_app_iff in H. destruct H as [H|[H|H]];
          [no_such_event H | | no_such_event H].
        rewrite Forall_forall in Ht. destruct (Ht _ H) as [a [b E]]. discriminate E.
  - destruct C as [_ [frame [q [rest [t [table [_ [_ [_ [Hdlg Hrun]]]]]]]]]].
    destruct (callback_forecast_run _ _ _ Hrun) as [tf [o [Hf ->]]].
    cbn [fst snd].
    destruct (forecast_after_failed_load (str_strip (str_upper entry_text)) table)
      as [Hmodel Hscaler].
    split; intros e He.
    + destruct (Hmodel e He) as [tf' [o' [Hf' [Hquiet [Hnd Hout]]]]].
      rewrite Hf in Hf'. injection Hf' as <- <-.
      split; [|split; [exact Hnd|]].
      * apply Forall_app. split; [|exact Hquiet].
        apply Forall_app. split; [repeat constructor|].
        eapply Forall_impl; [|exact Hdlg]. intros ev [a [b ->]]. reflexivity.
      * intros H. rewrite !in_app_iff in H. destruct H as [[H|H]|H].
        -- exfalso. no_such_event H.
        -- exfalso. rewrite Forall_forall in Hdlg.
           destruct (Hdlg _ H) as [a [b E]]. discriminate E.
        -- destruct (Hout H) as [Ho [t' ->]]. split; [exact Ho|].
           eexists. rewrite app_assoc. reflexivity.
    + destruct (Hscaler e He) as [tf' [o' [Hf' [Hquiet [Hnd Hout]]]]].
      rewrite Hf in Hf'. injection Hf' as <- <-.
      split; [|split; [exact Hnd|]].
      * apply Forall_app. split; [|exact Hquiet].
        apply Forall_app. split; [repeat constructor|].
        eapply Forall_impl; [|exact Hdlg]. intros ev [a [b ->]]. reflexivity.
      * intros H. rewrite !in_app_iff in H. destruct H as [[H|H]|H].
        -- exfalso. no_such_event H.
        -- exfalso. rewrite Forall_forall in Hdlg.
           destruct (Hdlg _ H) as [a [b E]]. discriminate E.
        -- destruct (Hout H) as [Ho [t' ->]]. split; [exact Ho|].
           eexists. rewrite app_assoc. reflexivity.
Qed.

Lemma extract_window_full (scaled_data : matrix) :
  Forall (fun r => length r = 4%nat) scaled_data ->
  (30 <= length scaled_data)%nat ->
  extract_window scaled_data = inr [skipn (length scaled_data - 30) scaled_data].
Proof.
  intros Hrows Hlen. unfold extract_window, LOOKBACK_DAYS.
  assert (Hl : length (last_rows 30 scaled_data) = 30%nat).
  { rewrite last_rows_length. lia. }
  apply reshape_full_window; [|exact Hl].
  unfold last_rows. now apply Forall_skipn_keep.
Qed.

(** X15: the whole run on good input.  With a ticker, a frame of at least
    43 rows without NaN, no fault, both files loaded, a scaler that returns
    four columns for at least 30 rows and a model that answers: the model is
    asked about the last 30 scaled rows of the table that starts at the
    fourteenth day, the first row of its answer is decided, and the events
    are the opening, the two loads, the transform, the predict, the label
    and the button, in this order. *)
Theorem run_on_good_input (entry_text : string) (frame : list bar)
    (model : predictor) (sc : scaler) (scaled_data : matrix)
    (prediction : list float) (others : matrix) (p : TrendPrediction) :
  str_strip (str_upper entry_text) <> "" ->
  yf_download (str_strip (str_upper entry_text)) = inr frame ->
  (43 <= length frame)%nat ->
  Forall (fun b => no_nan (bar_cells b) = true) frame ->
  rsi_raises (map bar_close frame) = None ->
  macd_raises (map bar_close frame) = None ->
  load_model "stock_trend_model.h5" = inr model ->
  joblib_load "scaler.pkl" = inr sc ->
  sc (map cells (skipn 13 (all_rows (map quote_of_bar frame)
                             (rsi_formula 14 (map bar_close frame))
                             (macd_formula 12 26 9 (map bar_close frame)))))
    = inr scaled_data ->
  Forall (fun r => length r = 4%nat) scaled_data ->
  (30 <= length scaled_data)%nat ->
  model [skipn (length scaled_data - 30) scaled_data] = inr (prediction :: others) ->
  decide format_1f (str_strip (str_upper entry_text)) prediction = Some p ->
  run_callback entry_text =
    ((opening (str_strip (str_upper entry_text)) ++ completed_events p)%list, Done p).
Proof.
  intros Hticker Hy Hrows Hclean Hr Hm Hlm Hjl Hsc Hcols Hsrows Hmodel Hdecide.
  assert (Hne : frame <> []) by (destruct frame; [cbn in Hrows; lia | discriminate]).
  destruct (clean_frame_run Hticker Hy Hne Hclean Hr Hm) as [table [Htable [Hlen ->]]].
  subst table.
  rewrite finish_prepend. unfold forecast, LOOKBACK_DAYS.
  destruct (Nat.ltb_spec
              (length (skipn 13 (all_rows (map quote_of_bar frame)
                                   (rsi_formula 14 (map bar_close frame))
                                   (macd_formula 12 26 9 (map bar_close frame))))) 30)
    as [Hshort|_]; [lia|].
  unfold load_artifacts, predict. rewrite Hlm, Hjl.
  cbn [bind emit ret prepend fst snd app]. rewrite Hsc.
  rewrite (extract_window_full Hcols Hsrows), Hmodel.
  cbn [bind emit ret prepend fst snd app]. rewrite Hdecide.
  reflexivity.
Qed.

(** X16: every run that ends with a prediction went the same way: the
    opening, then only error dialogs of the indicators, then one
    load of the model, one of the scaler, one transform, one predict, the
    label with the text and colour of that prediction and the button; the
    table had at least 30 rows and the prediction is the decision on the
    first row of the model's answer for the window of the scaled table. *)
Theorem completed_run_shape (entry_text : string) (p : TrendPrediction) :
  snd (run_callback entry_text) = Done p ->
  exists dialogs table model sc scaled_data X_input prediction others,
    fst (run_callback entry_text) =
      (opening (str_strip (str_upper entry_text)) ++ dialogs ++ completed_events p)%list /\
    Forall (fun e => exists title msg, e = ShowError title msg) dialogs /\
    (30 <= length table)%nat /\
    load_model "stock_trend_model.h5" = inr model /\
    joblib_load "scaler.pkl" = inr sc /\
    sc (map cells table) = inr scaled_data /\
    extract_window scaled_data = inr X_input /\
    model X_input = inr (prediction :: others) /\
    decide format_1f (str_strip (str_upper entry_text)) prediction = Some p.
Proof.
  intros Hdone.
  destruct (cases_of_callback entry_text) as [C|[C|C]].
  - destruct C as [_ E]. rewrite E in Hdone. discriminate Hdone.
  - destruct C as [_ [t [E _]]]. rewrite E in Hdone. discriminate Hdone.
  - destruct C as [_ [frame [q [rest [t [table [_ [_ [_ [Hdlg Hrun]]]]]]]]]].
    rewrite Hrun in Hdone |- *. rewrite finish_prepend in Hdone |- *.
    cbn [fst snd] in Hdone |- *.
    destruct (cases_of_forecast (str_strip (str_upper entry_text)) table)
      as [C|[C|[C|[C|C]]]].
    + destruct C as [_ E]. rewrite E in Hdone. discriminate Hdone.
    + destruct C as [_ [e [_ E]]]. rewrite E in Hdone. destruct e; discriminate Hdone.
    + destruct C as [_ [m [e [_ [_ E]]]]]. rewrite E in Hdone.
      destruct e; discriminate Hdone.
    + destruct C as [_ [m [sc [t' [_ [_ [_ E]]]]]]]. rewrite E in Hdone.
      discriminate Hdone.
    + destruct C as [Hlen [m [sc [pr [Hlm [Hjl [Hp D]]]]]]].
      destruct D as [[_ E]|[p' [Hd E]]]; rewrite E in Hdone |- *;
        [discriminate Hdone|].
      cbn [finish fst snd] in Hdone |- *. injection Hdone as <-.
      destruct (predict_cases m sc table)
        as [[e [_ E']]|[[sd [X [e [_ [_ [_ E']]]]]]|[sd [X [pr' [ot [Hsc [Hw [Hm E']]]]]]]]];
        rewrite E' in Hp; try discriminate Hp.
      injection Hp as <-.
      exists t, table, m, sc, sd, X, pr', ot.
      split; [now rewrite app_assoc|]. auto 10.
Qed.

Lemma dialogs_filtered_out (f : event -> bool) t :
  (forall title msg, f (ShowError title msg) = false) ->
  Forall (fun e => exists title msg, e = ShowError title msg) t ->
  filter f t = [].
Proof.
  intros Hf. induction 1 as [|e t [title [msg ->]] _ IH]; cbn; [reflexivity|].
  now rewrite Hf.
Qed.

Lemma forecast_calls_and_labels ticker data :
  exists t o,
    finish (run_forecast ticker data) = (t, o) /\
    (exists k, filter is_collaborator_call t = firstn k collaborator_calls) /\
    (leaves_label_stale o = true -> filter is_label t = []).
Proof.
  destruct (cases_of_forecast ticker data) as [C|[C|[C|[C|C]]]].
  1: destruct C as [Hlen ->].
  2: destruct C as [Hlen [e [_ ->]]].
  3: destruct C as [Hlen [m [e [_ [_ ->]]]]].
  4: destruct C as [Hlen [m [sc [t [_ [_ [Hp ->]]]]]]].
  5: destruct C as [Hlen [m [sc [pr [_ [_ [_ D]]]]]]];
     destruct D as [[_ ->]|[p [_ ->]]].
  - do 2 eexists. split; [reflexivity|]. split; [now exists 0%nat | discriminate].
  - do 2 eexists. split; [reflexivity|].
    split; [exists 1%nat; now destruct e | intros _; now destruct e].
  - do 2 eexists. split; [reflexivity|].
    split; [exists 2%nat; now destruct e | intros _; now destruct e].
  - destruct (predict_cases m sc data)
      as [[e [_ E]]|[[sd [X [e [_ [_ [_ E]]]]]]|[sd [X [pr [ot [_ [_ [_ E]]]]]]]]];
      rewrite E in Hp; try discriminate Hp; injection Hp as <-;
      do 2 eexists; (split; [reflexivity|]).
    + split; [now exists 3%nat | reflexivity].
    + split; [now exists 4%nat | reflexivity].
  - do 2 eexists. split; [reflexivity|]. split; [now exists 4%nat | reflexivity].
  - do 2 eexists. split; [reflexivity|]. split; [now exists 4%nat | discriminate].
Qed.

(** X17: in every run the model is loaded before the scaler, the scaler
    before the transform, the transform before the predict, each at most
    once and none without the ones before it. *)
Theorem collaborators_called_in_order (entry_text : string) :
  exists k,
    filter is_collaborator_call (fst (run_callback entry_text))
      = firstn k collaborator_calls.
Proof.
  destruct (cases_of_callback entry_text) as [C|[C|C]].
  - destruct C as [_ ->]. now exists 0%nat.
  - destruct C as [_ [t [-> Hwhy]]]. exists 0%nat. cbn [fst].
    rewrite !filter_app.
    destruct Hwhy as [[_ [msg ->]]|[_ ->]]; reflexivity.
  - destruct C as [_ [frame [q [rest [t [table [_ [_ [_ [Hdlg Hrun]]]]]]]]]].
    destruct (callback_forecast_run _ _ _ Hrun) as [tf [o [Hf ->]]].
    destruct (forecast_calls_and_labels (str_strip (str_upper entry_text)) table)
      as [tf' [o' [Hf' [[k Hk] _]]]].
    rewrite Hf in Hf'. injection Hf' as <- <-.
    exists k. cbn [fst]. rewrite !filter_app, Hk.
    rewrite (@dialogs_filtered_out is_collaborator_call t); [reflexivity| |exact Hdlg].
    reflexivity.
Qed.

(** X18: after a file, loading or prediction error, and after the exception
    of an empty answer, the label still reads "Processing...": these paths
    never set it again. *)
Theorem label_left_at_processing (entry_text : string) :
  leaves_label_stale (snd (run_callback entry_text)) = true ->
  filter is_label (fst (run_callback entry_text))
    = [ResultLabel "Processing..." "blue"].
Proof.
  intros Hstale.
  destruct (cases_of_callback entry_text) as [C|[C|C]].
  - destruct C as [_ E]. rewrite E in Hstale. discriminate Hstale.
  - destruct C as [_ [t [E _]]]. rewrite E in Hstale. discriminate Hstale.
  - destruct C as [_ [frame [q [rest [t [table [_ [_ [_ [Hdlg Hrun]]]]]]]]]].
    destruct (callback_forecast_run _ _ _ Hrun) as [tf [o [Hf E]]].
    rewrite E in Hstale |- *. cbn [fst snd] in Hstale |- *.
    destruct (forecast_calls_and_labels (str_strip (str_upper entry_text)) table)
      as [tf' [o' [Hf' [_ Hlabel]]]].
    rewrite Hf in Hf'. injection Hf' as <- <-.
    rewrite !filter_app, (Hlabel Hstale).
    rewrite (@dialogs_filtered_out is_label t); [reflexivity| |exact Hdlg].
    reflexivity.
Qed.

End Runs.

Lemma early_exits_witness :
  fst (predict_stock_trend as_typed as_typed sample_format (flat_download 60)
         no_fault no_fault sample_load_model sample_load_scaler "")
    = [ShowWarning "Input Error" "Please enter a stock ticker."] /\
  snd (predict_stock_trend as_typed as_typed sample_format (flat_download 60)
         no_fault no_fault sample_load_model sample_load_scaler "") = InputError.
Proof.
  destruct (early_exits as_typed as_typed sample_format (flat_download 60)
              no_fault no_fault sample_load_model sample_load_scaler "")
    as [Hinput [Htrace _]].
  split; [apply Htrace; reflexivity | apply Hinput; reflexivity].
Defined.

Lemma button_is_released_witness :
  hd_error (fst (predict_stock_trend as_typed as_typed sample_format (flat_download 60)
                   no_fault no_fault sample_load_model sample_load_scaler "AAPL"))
    = Some (ButtonState false) /\
  ((forall e, snd (predict_stock_trend as_typed as_typed sample_format (flat_download 60)
                     no_fault no_fault sample_load_model sample_load_scaler "AAPL")
              <> Uncaught e) ->
   last (fst (predict_stock_trend as_typed as_typed sample_format (flat_download 60)
                no_fault no_fault sample_load_model sample_load_scaler "AAPL"))
        RootUpdate = ButtonState true) /\
  (forall e, snd (predict_stock_trend as_typed as_typed sample_format (flat_download 60)
                    no_fault no_fault sample_load_model sample_load_scaler "AAPL")
             = Uncaught e ->
   ~ In (ButtonState true)
        (fst (predict_stock_trend as_typed as_typed sample_format (flat_download 60)
                no_fault no_fault sample_load_model sample_load_scaler "AAPL"))).
Proof.
  apply (@button_is_released as_typed as_typed sample_format (flat_download 60)
           no_fault no_fault sample_load_model sample_load_scaler "AAPL").
  discriminate.
Defined.

Lemma forty_three_rows_needed_witness :
  (snd (predict_stock_trend as_typed as_typed sample_format (flat_download 43)
          no_fault no_fault sample_load_model sample_load_scaler "AAPL")
     = InsufficientData <-> (length (bars_of (flat 43)) < 43)%nat) /\
  ((43 <= length (bars_of (flat 43)))%nat ->
     exists t,
       fst (predict_stock_trend as_typed as_typed sample_format (flat_download 43)
              no_fault no_fault sample_load_model sample_load_scaler "AAPL")
         = (opening (as_typed (as_typed "AAPL"))
              ++ LoadModel "stock_trend_model.h5" :: t)%list).
Proof.
  apply (@forty_three_rows_needed as_typed as_typed sample_format (flat_download 43)
           no_fault no_fault sample_load_model sample_load_scaler "AAPL"
           (bars_of (flat 43))).
  - discriminate.
  - reflexivity.
  - discriminate.
  - repeat constructor.
  - reflexivity.
  - reflexivity.
Defined.

Lemma load_failure_stops_the_run_witness :
  missing_model "stock_trend_model.h5" = inl FileNotFoundError /\
  Forall (fun ev => follows_model_load ev = false)
    (fst (predict_stock_trend as_typed as_typed sample_format (flat_download 60)
            no_fault no_fault missing_model sample_load_scaler "AAPL")) /\
  (forall p, snd (predict_stock_trend as_typed as_typed sample_format (flat_download 60)
                    no_fault no_fault missing_model sample_load_scaler "AAPL")
             <> Done p).
Proof.
  split; [reflexivity|].
  destruct (proj1 (load_failure_stops_the_run as_typed as_typed sample_format
                     (flat_download 60) no_fault no_fault missing_model
                     sample_load_scaler "AAPL") FileNotFoundError eq_refl)
    as [Hquiet [Hnd _]].
  split; [exact Hquiet | exact Hnd].
Defined.

Lemma run_on_good_input_witness :
  exists p,
    predict_stock_trend as_typed as_typed sample_format (flat_download 60)
      no_fault no_fault sample_load_model sample_load_scaler "AAPL"
    = ((opening (as_typed (as_typed "AAPL")) ++ completed_events p)%list, Done p).
Proof.
  eexists.
  eapply (@run_on_good_input as_typed as_typed sample_format (flat_download 60)
            no_fault no_fault sample_load_model sample_load_scaler "AAPL"
            (bars_of (flat 60)) sample_model identity_scaler).
  - discriminate.
  - reflexivity.
  - vm_compute. lia.
  - repeat constructor.
  - reflexivity.
  - reflexivity.
  - reflexivity.
  - reflexivity.
  - reflexivity.
  - vm_compute. repeat constructor.
  - vm_compute. lia.
  - reflexivity.
  - vm_compute. reflexivity.
Defined.

Lemma completed_run_shape_witness :
  exists p dialogs,
    fst (predict_stock_trend as_typed as_typed sample_format (flat_download 60)
           no_fault no_fault sample_load_model sample_load_scaler "AAPL")
      = (opening (as_typed (as_typed "AAPL")) ++ dialogs ++ completed_events p)%list /\
    Forall (fun e => exists title msg, e = ShowError title msg) dialogs.
Proof.
  eexists.
  edestruct (@completed_run_shape as_typed as_typed sample_format (flat_download 60)
               no_fault no_fault sample_load_model sample_load_scaler "AAPL")
    as [dialogs [table [model [sc [sd [X [pr [ot [Ht [Hd _]]]]]]]]]].
  - vm_compute. reflexivity.
  - exists dialogs. split; [exact Ht | exact Hd].
Defined.

Lemma label_left_at_processing_witness :
  leaves_label_stale
    (snd (predict_stock_trend as_typed as_typed sample_format (flat_download 60)
            no_fault no_fault missing_model sample_load_scaler "AAPL")) = true /\
  filter is_label
    (fst (predict_stock_trend as_typed as_typed sample_format (flat_download 60)
            no_fault no_fault missing_model sample_load_scaler "AAPL"))
    = [ResultLabel "Processing..." "blue"].
Proof.
  assert (H : leaves_label_stale
                (snd (predict_stock_trend as_typed as_typed sample_format
                        (flat_download 60) no_fault no_fault missing_model
                        sample_load_scaler "AAPL")) = true)
    by (vm_compute; reflexivity).
  split; [exact H|].
  exact (@label_left_at_processing as_typed as_typed sample_format (flat_download 60)
           no_fault no_fault missing_model sample_load_scaler "AAPL" H).
Defined.
